(** * Singing-voice-synthesis inference: orchestrator and batch runner

    A shallow embedding of [espnet2/bin/svs_inference.py]:
    the class [SingingGenerate] (construction of the decoding
    configuration, the synthesis call [__call__]) and the function
    [inference] (the batch runner), together with the part of the tensor
    library the code calls ([view], [transpose], indexing).

    Python exceptions are values of [exn]; code that can raise returns a
    [result]; code with effects (the dictionary kept in
    [self.decode_conf], calls of the external models, the output
    directories) runs in the state-and-exception monad [M]. *)

From stdpp Require Import gmap strings list fin_maps.
From Stdlib Require Import QArith.QArith_base.

Local Open Scope string_scope.
Local Open Scope nat_scope.
Local Open Scope list_scope.

(** ** Exceptions and results *)

Inductive exn : Type :=
  | RuntimeError (msg : string)
  | NotImplementedError (msg : string)
  | ValueError (msg : string)
  | TypeError (msg : string)
  | KeyError (key : string)
  | IndexError (msg : string)
  | AttributeError (msg : string)
  | AssertionError (msg : string)
  | UnboundLocalError (name : string)
  | ZeroDivisionError
  | StopIteration
  | FileNotFoundError (path : string).

Inductive result (A : Type) : Type :=
  | Ok (a : A)
  | Raise (e : exn).
Arguments Ok {A} a.
Arguments Raise {A} e.

#[global] Instance result_ret : MRet result := fun A a => Ok a.
#[global] Instance result_bind : MBind result := fun A B f m =>
  match m with
  | Ok a => f a
  | Raise e => Raise e
  end.

Definition is_ok {A} (r : result A) : bool :=
  match r with Ok _ => true | Raise _ => false end.

(** ** Tensors

    A tensor is a strided view of a flat storage, as in the tensor
    library: element [(i0, i1, ...)] lives at storage position
    [offset + i0 * stride0 + i1 * stride1 + ...].  Elements are integers
    (discrete token codes); no arithmetic is done on them here. *)

Record Tensor : Type := mkTensor {
  storage : list Z;
  offset : nat;
  sizes : list nat;
  strides : list nat
}.

#[global] Instance Tensor_eq_dec : EqDecision Tensor.
Proof. solve_decision. Defined.

Definition numel_of (shape : list nat) : nat := foldr Nat.mul 1 shape.
Definition numel (t : Tensor) : nat := numel_of (sizes t).
Definition ndim (t : Tensor) : nat := length (sizes t).

(** Row-major strides of a shape. *)
Fixpoint contiguous_strides (shape : list nat) : list nat :=
  match shape with
  | [] => []
  | _ :: rest => numel_of rest :: contiguous_strides rest
  end.

(** [torch.tensor(data)]: a fresh one-dimensional tensor. *)
Definition flat (data : list Z) : Tensor :=
  mkTensor data 0 [length data] [1].

(** Storage position of a multi-index; [None] when an index is out of
    range or the number of indices is not the number of dimensions. *)
Fixpoint position (szs strs idx : list nat) (base : nat) : option nat :=
  match szs, strs, idx with
  | [], [], [] => Some base
  | sz :: szs', st :: strs', i :: idx' =>
      if i <? sz then position szs' strs' idx' (base + i * st) else None
  | _, _, _ => None
  end.

(** [t[i0, i1, ...]] for a full multi-index. *)
Definition tensor_get (t : Tensor) (idx : list nat) : option Z :=
  p ← position (sizes t) (strides t) idx (offset t);
  storage t !! p.

(** All elements in logical (row-major) order. *)
Fixpoint positions (szs strs : list nat) (base : nat) : list nat :=
  match szs, strs with
  | sz :: szs', st :: strs' =>
      flat_map (fun i => positions szs' strs' (base + i * st)) (seq 0 sz)
  | _, _ => [base]
  end.

Definition tensor_elements (t : Tensor) : list (option Z) :=
  map (fun p => storage t !! p) (positions (sizes t) (strides t) (offset t)).

(** *** [view]: shape inference *)

Fixpoint infer_scan (shape : list Z) (i newsize : nat) (infer_dim : option nat)
  : result (nat * option nat) :=
  match shape with
  | [] => Ok (newsize, infer_dim)
  | d :: rest =>
      if (d =? -1)%Z then
        match infer_dim with
        | Some _ => Raise (RuntimeError "only one dimension can be inferred")
        | None => infer_scan rest (S i) newsize (Some i)
        end
      else if (0 <=? d)%Z then
        infer_scan rest (S i) (newsize * Z.to_nat d) infer_dim
      else Raise (RuntimeError "invalid shape dimension")
  end.

Definition infer_size (shape : list Z) (n : nat) : result (list nat) :=
  '(newsize, infer_dim) ← infer_scan shape 0 1 None;
  let res := map Z.to_nat shape in
  if (n =? newsize)
     || (bool_decide (is_Some infer_dim) && (0 <? newsize)
         && (n mod newsize =? 0))
  then
    match infer_dim with
    | Some i =>
        if newsize =? 0
        then Raise (RuntimeError "the unspecified dimension size -1 is ambiguous")
        else Ok (<[i := n / newsize]> res)
    | None => Ok res
    end
  else Raise (RuntimeError "shape is invalid for input size").

(** *** [view]: strides of the new shape

    The old dimensions are cut, from the last to the first, into chunks
    that are contiguous in storage; the dimensions of the new shape must
    tile each chunk exactly.  Lists are handled last dimension first. *)

Fixpoint fill_chunk (base tensor_numel view_numel : nat) (vs acc : list nat)
  : nat * list nat * list nat :=
  match vs with
  | v :: vs' =>
      if (view_numel <? tensor_numel) || (v =? 1)
      then fill_chunk base tensor_numel (view_numel * v) vs'
             (view_numel * base :: acc)
      else (view_numel, vs, acc)
  | [] => (view_numel, [], acc)
  end.

Fixpoint chunks (olds : list (nat * nat)) (base tensor_numel view_numel : nat)
    (vs acc : list nat) : option (list nat * list nat) :=
  match olds with
  | [] => Some (vs, acc)
  | (sz, _) :: rest =>
      let tensor_numel := tensor_numel * sz in
      let chunk_end :=
        match rest with
        | [] => true
        | (psz, pst) :: _ =>
            negb (psz =? 1) && negb (pst =? tensor_numel * base)
        end in
      if chunk_end then
        let '(view_numel', vs', acc') :=
          fill_chunk base tensor_numel view_numel vs acc in
        if view_numel' =? tensor_numel then
          match rest with
          | [] => Some (vs', acc')
          | (_, pst) :: _ => chunks rest pst 1 1 vs' acc'
          end
        else None
      else chunks rest base tensor_numel view_numel vs acc
  end.

Fixpoint zero_numel_strides (newshape : list nat) : list nat :=
  match newshape with
  | [] => []
  | [_] => [1]
  | _ :: ((n :: _) as rest) =>
      match zero_numel_strides rest with
      | (st :: _) as sts => Nat.max n 1 * st :: sts
      | [] => []
      end
  end.

Definition computeStride (oldshape oldstride newshape : list nat)
  : option (list nat) :=
  match oldshape with
  | [] => Some (map (fun _ => 1) newshape)
  | _ =>
      if numel_of oldshape =? 0 then
        if bool_decide (oldshape = newshape) then Some oldstride
        else Some (zero_numel_strides newshape)
      else
        match chunks (reverse (zip oldshape oldstride))
                (default 1 (last oldstride)) 1 1 (reverse newshape) [] with
        | Some ([], acc) => Some acc
        | _ => None
        end
  end.

(** The sizes given to [view] are unpacked to 64-bit integers before
    anything else: a Python integer outside that range is refused. *)
Definition fits_int64 (d : Z) : bool :=
  (- 2 ^ 63 <=? d)%Z && (d <? 2 ^ 63)%Z.

(** [t.view(shape)]: a view of the same storage under a new shape. *)
Definition view (t : Tensor) (shape : list Z) : result Tensor :=
  if forallb fits_int64 shape then
    newshape ← infer_size shape (numel t);
    match computeStride (sizes t) (strides t) newshape with
    | Some newstride => Ok (mkTensor (storage t) (offset t) newshape newstride)
    | None =>
        Raise (RuntimeError "view size is not compatible with input tensor's size and stride")
    end
  else Raise (TypeError "view(): argument 'size' failed to unpack: Overflow when unpacking long").

(** Swap two entries of a list ([None] when an index is out of range). *)
Definition swap {A} (l : list A) (i j : nat) : option (list A) :=
  x ← l !! i; y ← l !! j; Some (<[i := y]> (<[j := x]> l)).

(** [t.transpose(d0, d1)]. *)
Definition transpose (t : Tensor) (d0 d1 : nat) : result Tensor :=
  match swap (sizes t) d0 d1, swap (strides t) d0 d1 with
  | Some szs, Some strs => Ok (mkTensor (storage t) (offset t) szs strs)
  | _, _ => Raise (IndexError "Dimension out of range")
  end.

(** [t[:, i]]: every index of dimension 0, index [i] of dimension 1. *)
Definition select_column (t : Tensor) (i : nat) : result Tensor :=
  match sizes t, strides t with
  | sz0 :: sz1 :: szs, st0 :: st1 :: strs =>
      if i <? sz1
      then Ok (mkTensor (storage t) (offset t + i * st1) (sz0 :: szs) (st0 :: strs))
      else Raise (IndexError "index is out of bounds for dimension 1")
  | _, _ => Raise (IndexError "too many indices for tensor")
  end.

(** [t[0]]. *)
Definition select_first (t : Tensor) : result Tensor :=
  match sizes t, strides t with
  | sz0 :: szs, _ :: strs =>
      if 0 <? sz0
      then Ok (mkTensor (storage t) (offset t) szs strs)
      else Raise (IndexError "index 0 is out of bounds for dimension 0 with size 0")
  | _, _ => Raise (IndexError "invalid index of a 0-dim tensor")
  end.

(** [t.size(0)]. *)
Definition size0 (t : Tensor) : result nat :=
  match sizes t with
  | sz0 :: _ => Ok sz0
  | [] => Raise (IndexError "Dimension specified as 0 but tensor has no dimensions")
  end.

(** [t.unsqueeze(1)]. *)
Definition unsqueeze1 (t : Tensor) : result Tensor :=
  match sizes t, strides t with
  | sz0 :: szs, st0 :: strs =>
      let st1 := match szs, strs with
                 | sz :: _, st :: _ => sz * st
                 | _, _ => 1
                 end in
      Ok (mkTensor (storage t) (offset t) (sz0 :: 1 :: szs) (st0 :: st1 :: strs))
  | _, _ => Raise (IndexError "Dimension out of range")
  end.

(** [t[::step]] with [step >= 1]. *)
Definition slice_step (t : Tensor) (step : nat) : result Tensor :=
  match sizes t, strides t with
  | sz0 :: szs, st0 :: strs =>
      if step =? 0 then Raise (ValueError "slice step cannot be zero")
      else Ok (mkTensor (storage t) (offset t)
                 ((sz0 + step - 1) / step :: szs) (st0 * step :: strs))
  | _, _ => Raise (IndexError "slice() cannot be applied to a 0-dim tensor")
  end.

(** ** Python values, dictionaries and the program state *)

(** Values that travel through keyword arguments: tensors, the options
    of the decoding configuration, and the score and label records
    handed to the preprocessing function, which this code never looks
    into ([PObject], or [PTuple] where the value is known to be a
    tuple).  Floating-point
    options are only stored and passed on, never computed with; they are
    kept as the decimal they were written as. *)
#[warnings="-register-all"]
Inductive pyval : Type :=
  | PNone
  | PBool (b : bool)
  | PInt (z : Z)
  | PFloat (q : Q)
  | PStr (s : string)
  | PTensor (t : Tensor)
  | PTuple (items : list pyval)
  | PObject (repr : string).

Definition is_None (v : pyval) : bool :=
  match v with PNone => true | _ => false end.

Definition of_optional (o : option Tensor) : pyval :=
  match o with Some t => PTensor t | None => PNone end.

(** [d[k]] on a dictionary. *)
Definition getitem {V} (d : gmap string V) (k : string) : result V :=
  match d !! k with
  | Some v => Ok v
  | None => Raise (KeyError k)
  end.

(** The mapping returned by the acoustic model
    ([Dict[str, Optional[Tensor]]]): a key can be absent, or present
    with value [None], or present with a tensor. *)
Abbreviation OutputDict := (gmap string (option Tensor)).

(** [d.get(k)]: [None] both for an absent key and for a stored [None]. *)
Definition dict_get (d : OutputDict) (k : string) : option Tensor :=
  default None (d !! k).

(** What the vocoder is called with: [input_feat] is a tensor, the
    dictionary built for [use_singomd], or [None] when the model stored
    [None] under the selected key. *)
Inductive vocoder_input : Type :=
  | FeatNone
  | FeatTensor (t : Tensor)
  | FeatDict (d : list (Z * Tensor)).

(** Calls of the external collaborators and writes to the output
    channels, in the order they happen. *)
Inductive event : Type :=
  | CallPreprocess (uid : string) (infer_data : gmap string pyval)
  | CallModelInference (batch cfg : gmap string pyval)
  | CallDurationCalculator (att_w : Tensor)
  | CallVocoder (input_feat : vocoder_input) (pitch : option Tensor)
  | CallBasicConfig
  | CallSetAllRandomSeed (seed : Z)
  | CallBuildModel (task : string)
  | CallBuildVocoder
  | CallBuildStreamingIterator
  | OpenWriter (path : string)
  | WriteChannel (dir key : string).

(** The store: dictionary objects that are shared by reference (the
    stored decoding configuration and its per-call copies), the trace of
    events, and the channel directories that exist under [output_dir]. *)
Record state : Type := mkState {
  heap : gmap nat (gmap string pyval);
  trace : list event;
  dirs : gset string
}.

Definition M (A : Type) : Type := state → result A * state.

#[global] Instance M_ret : MRet M := fun A a s => (Ok a, s).
#[global] Instance M_bind : MBind M := fun A B f m s =>
  match m s with
  | (Ok a, s') => f a s'
  | (Raise e, s') => (Raise e, s')
  end.

Definition raise {A} (e : exn) : M A := fun s => (Raise e, s).
Definition lift {A} (r : result A) : M A := fun s => (r, s).
Definition log (e : event) : M unit :=
  fun s => (Ok (), mkState (heap s) (trace s ++ [e]) (dirs s)).

(** A fresh reference holding [d]. *)
Definition alloc (d : gmap string pyval) : M nat :=
  fun s => let l := fresh (dom (heap s)) in
           (Ok l, mkState (<[l := d]> (heap s)) (trace s) (dirs s)).

(** The dictionary behind a reference (every reference the program
    holds is allocated; one that is not reads as the empty dictionary). *)
Definition deref (l : nat) : M (gmap string pyval) :=
  fun s => (Ok (heap s !!! l), s).

(** [d.copy()]: a new object with the same items. *)
Definition dict_copy (l : nat) : M nat :=
  d ← deref l; alloc d.

(** [d.update(other)]: in place; the items of [other] win. *)
Definition dict_update (l : nat) (other : gmap string pyval) : M unit :=
  fun s => (Ok (), mkState (<[l := other ∪ (heap s !!! l)]> (heap s))
                     (trace s) (dirs s)).

(** ** The acoustic model and the other collaborators *)

(** The class of [model.svs], as far as [isinstance] asks. *)
Inductive svs_class : Type := VITS | singing_tacotron | other_svs.

Definition isinstance (c k : svs_class) : bool :=
  match c, k with
  | VITS, VITS | singing_tacotron, singing_tacotron => true
  | _, _ => false
  end.

(** What [build_model_from_file] returns: the model with the attributes
    of [model.svs] that are read, its [inference] method (called with
    the keyword arguments), and the preprocessing function built from
    its training arguments. *)
Record acoustic_model : Type := {
  svs_type : svs_class;
  spks : option Z;
  langs : option Z;
  spk_embed_dim : option Z;
  model_inference : gmap string pyval → result OutputDict;
  model_preprocess_fn : string → gmap string pyval → result (gmap string pyval)
}.

(** A vocoder: [vocoder(input_feat)] or [vocoder(input_feat, pitch)]. *)
Definition vocoder_fn : Type := vocoder_input → option Tensor → result Tensor.

(** The arguments of [SingingGenerate.__init__]. *)
Record init_args : Type := {
  arg_threshold : Q;
  arg_minlenratio : Q;
  arg_maxlenratio : Q;
  arg_use_teacher_forcing : bool;
  arg_use_att_constraint : bool;
  arg_use_dynamic_filter : bool;
  arg_backward_window : Z;
  arg_forward_window : Z;
  arg_noise_scale : Q;
  arg_noise_scale_dur : Q;
  arg_vocoder_checkpoint : option string;
  arg_discrete_token_layers : Z;
  arg_mix_type : string;
  arg_prefer_normalized_feats : bool;
  arg_svs_task : string
}.

(** What the streaming loader yields: the utterance ids and the
    mini-batch, a dictionary in insertion order. *)
Abbreviation loader_item := (list string * list (string * Tensor))%type.

(** The task classes and [DurationCalculator]: external code. *)
Record collaborators : Type := {
  build_model_from_file : string → result acoustic_model;
  build_vocoder_from_file : result vocoder_fn;
  DurationCalculator : Tensor → result (Tensor * Tensor);
  build_streaming_iterator : result (list loader_item)
}.

Module SingingGenerate.

(** The object: the attributes [__init__] sets.  [decode_conf] is a
    reference to the dictionary object. *)
Record t : Type := {
  model : acoustic_model;
  duration_calculator : Tensor → result (Tensor * Tensor);
  use_teacher_forcing : bool;
  vocoder : option vocoder_fn;
  prefer_normalized_feats : bool;
  discrete_token_layers : Z;
  mix_type : string;
  decode_conf : nat
}.

(** Lines 165-183: the decoding configuration. *)
Definition setup_decode_conf (c : svs_class) (a : init_args)
  : gmap string pyval :=
  let decode_conf : gmap string pyval := ∅ in
  let decode_conf :=
    <["use_teacher_forcing" := PBool (arg_use_teacher_forcing a)]> decode_conf in
  let decode_conf :=
    if isinstance c VITS then
      <["noise_scale_dur" := PFloat (arg_noise_scale_dur a)]>
        (<["noise_scale" := PFloat (arg_noise_scale a)]> decode_conf)
    else decode_conf in
  let decode_conf :=
    if isinstance c singing_tacotron then
      <["backward_window" := PInt (arg_backward_window a)]>
        (<["forward_window" := PInt (arg_forward_window a)]>
          (<["use_dynamic_filter" := PBool (arg_use_dynamic_filter a)]>
            (<["use_att_constraint" := PBool (arg_use_att_constraint a)]>
              (<["minlenratio" := PFloat (arg_minlenratio a)]>
                (<["maxlenratio" := PFloat (arg_maxlenratio a)]>
                  (<["threshold" := PFloat (arg_threshold a)]> decode_conf))))))
    else decode_conf in
  decode_conf.

Definition __init__ (env : collaborators) (a : init_args) : M t :=
  (* setup model *)
  _ ← (if bool_decide (arg_svs_task a = "svs") then mret ()
       else if bool_decide (arg_svs_task a = "gan_svs") then mret ()
       else raise (ValueError "Unsupported task"));
  _ ← log (CallBuildModel (arg_svs_task a));
  model ← lift (build_model_from_file env (arg_svs_task a));
  vocoder ←
    match arg_vocoder_checkpoint a with
    | Some _ =>
        _ ← log CallBuildVocoder;
        v ← lift (build_vocoder_from_file env);
        mret (Some v)
    | None => mret None
    end;
  (* setup decoding config *)
  decode_conf ← alloc (setup_decode_conf (svs_type model) a);
  mret {| model := model;
          duration_calculator := DurationCalculator env;
          use_teacher_forcing := arg_use_teacher_forcing a;
          vocoder := vocoder;
          prefer_normalized_feats := arg_prefer_normalized_feats a;
          discrete_token_layers := arg_discrete_token_layers a;
          mix_type := arg_mix_type a;
          decode_conf := decode_conf |}.

(** The properties. *)
Definition use_sids (self : t) : bool :=
  bool_decide (spks (model self) ≠ None).
Definition use_lids (self : t) : bool :=
  bool_decide (langs (model self) ≠ None).
Definition use_spembs (self : t) : bool :=
  bool_decide (spk_embed_dim (model self) ≠ None).

(** The arguments of [__call__].  [text] is a dictionary with the
    score and the label or text, or a tensor. *)
Inductive text_arg : Type :=
  | TextDict (d : gmap string pyval)
  | TextTensor (x : Tensor).

Record call_args : Type := {
  a_text : text_arg;
  a_singing : option Tensor;
  a_label : option Tensor;
  a_midi : option Tensor;
  a_duration_phn : option Tensor;
  a_duration_ruled_phn : option Tensor;
  a_duration_syb : option Tensor;
  a_phn_cnt : option Tensor;
  a_slur : option Tensor;
  a_pitch : option Tensor;
  a_energy : option Tensor;
  a_spembs : option Tensor;
  a_sids : option Tensor;
  a_lids : option Tensor;
  a_discrete_token : option Tensor;
  a_decode_conf : option (gmap string pyval);
  a_kwargs : gmap string pyval
}.

(** [if v is not None: batch.update(k=v)]. *)
Definition update_unless_None (k : string) (v : pyval)
    (batch : gmap string pyval) : gmap string pyval :=
  if is_None v then batch else <[k := v]> batch.

(** Lines 216-265: the keyword arguments for the model. *)
Definition prepare_batch (self : t) (a : call_args) : M (gmap string pyval) :=
  '(batch, label, midi, duration_phn, duration_ruled_phn, duration_syb,
    phn_cnt, slur) ←
    match a_text a with
    | TextDict text =>
        score ← lift (getitem text "score");
        let infer_data : gmap string pyval := {[ "score" := score ]} in
        infer_data ← lift
          (match text !! "label" with
           | Some l => Ok (<["label" := l]> infer_data)
           | None => x ← getitem text "text"; Ok (<["text" := x]> infer_data)
           end);
        _ ← log (CallPreprocess "<dummy>" infer_data);
        data ← lift (model_preprocess_fn (model self) "<dummy>" infer_data);
        label ← lift (getitem data "label");
        midi ← lift (getitem data "midi");
        duration_phn ← lift (getitem data "duration_phn");
        duration_ruled_phn ← lift (getitem data "duration_ruled_phn");
        duration_syb ← lift (getitem data "duration_syb");
        phn_cnt ← lift (getitem data "phn_cnt");
        slur ← lift (getitem data "slur");
        mret ({[ "text" := label ]} : gmap string pyval, label, midi,
              duration_phn, duration_ruled_phn, duration_syb, phn_cnt, slur)
    | TextTensor x =>
        mret ({[ "text" := PTensor x ]} : gmap string pyval,
              of_optional (a_label a), of_optional (a_midi a),
              of_optional (a_duration_phn a),
              of_optional (a_duration_ruled_phn a),
              of_optional (a_duration_syb a), of_optional (a_phn_cnt a),
              of_optional (a_slur a))
    end;
  let batch := update_unless_None "singing" (of_optional (a_singing a)) batch in
  let batch := update_unless_None "label" label batch in
  let batch := update_unless_None "midi" midi batch in
  let batch := update_unless_None "duration_phn" duration_phn batch in
  let batch := update_unless_None "duration_ruled_phn" duration_ruled_phn batch in
  let batch := update_unless_None "duration_syb" duration_syb batch in
  let batch := update_unless_None "pitch" (of_optional (a_pitch a)) batch in
  let batch := update_unless_None "phn_cnt" phn_cnt batch in
  let batch := update_unless_None "slur" slur batch in
  let batch := update_unless_None "energy" (of_optional (a_energy a)) batch in
  let batch := update_unless_None "spembs" (of_optional (a_spembs a)) batch in
  let batch := update_unless_None "sids" (of_optional (a_sids a)) batch in
  let batch := update_unless_None "lids" (of_optional (a_lids a)) batch in
  let batch :=
    update_unless_None "discrete_token" (of_optional (a_discrete_token a)) batch in
  (* to_device moves the tensors and keeps the mapping *)
  mret batch.

(** Line 271: [self.model.inference] with the items of [batch] and of
    [cfg] as keyword arguments; a keyword given twice is a [TypeError]
    at the call, before the model runs. *)
Definition call_model_inference (self : t) (batch cfg : gmap string pyval)
  : M OutputDict :=
  if bool_decide (dom batch ∩ dom cfg = ∅) then
    _ ← log (CallModelInference batch cfg);
    lift (model_inference (model self) (batch ∪ cfg))
  else raise (TypeError "got multiple values for keyword argument").

Definition call_duration_calculator (self : t) (att_w : Tensor)
  : M (Tensor * Tensor) :=
  _ ← log (CallDurationCalculator att_w);
  lift (duration_calculator self att_w).

Definition call_vocoder (voc : vocoder_fn) (input_feat : vocoder_input)
    (pitch : option Tensor) : M Tensor :=
  _ ← log (CallVocoder input_feat pitch);
  lift (voc input_feat pitch).

Definition as_tensor (x : vocoder_input) : result Tensor :=
  match x with
  | FeatTensor x => Ok x
  | FeatNone => Raise (AttributeError "'NoneType' object has no such attribute")
  | FeatDict _ => Raise (AttributeError "'dict' object has no such attribute")
  end.

(** Lines 293-298: the layout of multi-layer tokens. *)
Definition mix_layers (layers : Z) (mix_type : string)
    (input_feat : vocoder_input) : result vocoder_input :=
  if bool_decide (mix_type = "frame") then
    x ← as_tensor input_feat;
    x ← view x [-1; layers]%Z;
    Ok (FeatTensor x)
  else if bool_decide (mix_type = "sequence") then
    x ← as_tensor input_feat;
    x ← view x [layers; -1]%Z;
    x ← transpose x 0 1;
    Ok (FeatTensor x)
  else Ok input_feat.

(** Lines 301-308: one sub-sequence per resolution. *)
Definition singomd_feats (input_feat : vocoder_input) : result vocoder_input :=
  let resolution := [20; 40]%Z in
  x ← match input_feat with
      | FeatTensor x => Ok x
      | _ => Raise (TypeError "object is not subscriptable")
      end;
  feat_dict ← mapM (fun '(i, rs) =>
                feat ← select_column x i;
                feat ← unsqueeze1 feat;
                feat ← slice_step feat (Z.to_nat (rs / 20));
                Ok (rs, feat))
             (imap (fun i rs => (i, rs)) resolution);
  Ok (FeatDict feat_dict).

(** Lines 281-287: the feature the vocoder is fed. *)
Definition select_input_feat (self : t) (output : OutputDict)
  : result vocoder_input :=
  input_feat ←
    (if prefer_normalized_feats self
        || bool_decide (dict_get output "feat_gen_denorm" = None)
     then getitem output "feat_gen"
     else getitem output "feat_gen_denorm");
  Ok (match input_feat with Some x => FeatTensor x | None => FeatNone end).

(** Lines 280-319: the vocoder step (mel-to-wav). *)
Definition apply_vocoder (self : t) (voc : vocoder_fn)
    (kwargs : gmap string pyval) (output : OutputDict) : M OutputDict :=
  input_feat ← lift (select_input_feat self output);
  input_feat ← lift
    (if (1 <? discrete_token_layers self)%Z then
       input_feat ← mix_layers (discrete_token_layers self) (mix_type self)
                      input_feat;
       match kwargs !! "use_singomd" with
       | Some (PBool true) => singomd_feats input_feat
       | _ => Ok input_feat
       end
     else Ok input_feat);
  wav ←
    match output !! "pitch" with
    | Some (Some pitch) =>
        if bool_decide (ndim pitch = 1) then
          _ ← lift (as_tensor input_feat);   (* input_feat.shape is logged *)
          call_vocoder voc input_feat (Some pitch)
        else raise (AssertionError "pitch shape must be (T,).")
    | _ => call_vocoder voc input_feat None
    end;
  mret (<["wav" := Some wav]> output).

(** Lines 208-214: check inputs. *)
Definition check_inputs (self : t) (a : call_args) : M unit :=
  _ ← (if use_sids self && bool_decide (a_sids a = None)
       then raise (RuntimeError "Missing required argument: 'sids'")
       else mret ());
  _ ← (if use_lids self && bool_decide (a_lids a = None)
       then raise (RuntimeError "Missing required argument: 'lids'")
       else mret ());
  if use_spembs self && bool_decide (a_spembs a = None)
  then raise (RuntimeError "Missing required argument: 'spembs'")
  else mret ().

(** Lines 267-270: the configuration of this call, as a reference:
    the stored dictionary itself, or a copy updated with the
    override. *)
Definition call_config (self : t) (a : call_args) : M nat :=
  match a_decode_conf a with
  | Some override =>
      cfg ← dict_copy (decode_conf self);
      _ ← dict_update cfg override;
      mret cfg
  | None => mret (decode_conf self)
  end.

(** Lines 208-271: up to the output of the acoustic model. *)
Definition run_model (self : t) (a : call_args) : M OutputDict :=
  _ ← check_inputs self a;
  batch ← prepare_batch self a;
  cfg ← call_config self a;
  cfg ← deref cfg;
  call_model_inference self batch cfg.

(** Lines 273-321: duration and focus rate, or the vocoder. *)
Definition postprocess (self : t) (kwargs : gmap string pyval)
    (output : OutputDict) : M OutputDict :=
  match dict_get output "att_w" with
  | Some att_w =>
      '(duration, focus_rate) ← call_duration_calculator self att_w;
      mret (<["focus_rate" := Some focus_rate]>
              (<["duration" := Some duration]> output))
  | None =>
      let output : OutputDict :=
        <["focus_rate" := None]> (<["duration" := None]> output) in
      (* apply vocoder (mel-to-wav) *)
      match vocoder self with
      | Some voc => apply_vocoder self voc kwargs output
      | None => mret output
      end
  end.

(** Lines 187-321. *)
Definition __call__ (self : t) (a : call_args) : M OutputDict :=
  output ← run_model self a;
  postprocess self (a_kwargs a) output.

End SingingGenerate.

(** ** The batch runner *)

(** The arguments of [inference] that the function itself reads. *)
Record inference_args : Type := {
  batch_size : Z;
  ngpu : Z;
  seed : Z;
  use_teacher_forcing : bool;
  noise_scale : Q;
  noise_scale_dur : Q;
  vocoder_checkpoint : option string;
  discrete_token_layers : Z;
  mix_type : string;
  svs_task : option string;
  use_singomd : bool
}.

(** [Path.mkdir(parents=True, exist_ok=True)] and [shutil.rmtree]. *)
Definition mkdir (d : string) : M unit :=
  fun s => (Ok (), mkState (heap s) (trace s) ({[ d ]} ∪ dirs s)).

Definition rmtree (d : string) : M unit :=
  fun s => if bool_decide (d ∈ dirs s)
           then (Ok (), mkState (heap s) (trace s) (dirs s ∖ {[ d ]}))
           else (Raise (FileNotFoundError d), s).

(** [k.endswith(suffix)]. *)
Definition endswith (k suffix : string) : bool :=
  bool_decide (String.list_ascii_of_string suffix
                 `suffix_of` String.list_ascii_of_string k).

(** [SingingGenerate(...)] as [inference] calls it: the other
    parameters keep their defaults. *)
Definition init_args_of (a : inference_args) (task : string) : init_args :=
  {| arg_threshold := 5 # 10;
     arg_minlenratio := 0;
     arg_maxlenratio := 10;
     arg_use_teacher_forcing := use_teacher_forcing a;
     arg_use_att_constraint := false;
     arg_use_dynamic_filter := false;
     arg_backward_window := 2;
     arg_forward_window := 4;
     arg_noise_scale := noise_scale a;
     arg_noise_scale_dur := noise_scale_dur a;
     arg_vocoder_checkpoint := vocoder_checkpoint a;
     arg_discrete_token_layers := discrete_token_layers a;
     arg_mix_type := mix_type a;
     arg_prefer_normalized_feats := false;
     arg_svs_task := task |}.

(** Line 537 calls [singingGenerate] with the items of [batch] and
    [use_singomd] as keyword arguments: how they are bound to the
    parameters of [__call__]. *)
Definition named_parameters : list string :=
  ["text"; "singing"; "label"; "midi"; "duration_phn"; "duration_ruled_phn";
   "duration_syb"; "phn_cnt"; "slur"; "pitch"; "energy"; "spembs"; "sids";
   "lids"; "discrete_token"; "decode_conf"].

Definition bind_arguments (batch : list (string * Tensor)) (use_singomd : bool)
  : result SingingGenerate.call_args :=
  let d : gmap string Tensor := list_to_map batch in
  if bool_decide (is_Some (d !! "use_singomd")) then
    Raise (TypeError "got multiple values for keyword argument 'use_singomd'")
  else if bool_decide (is_Some (d !! "decode_conf")) then
    Raise (TypeError "argument decode_conf is not a dict or None")
  else
    match d !! "text" with
    | None => Raise (TypeError "missing 1 required positional argument: 'text'")
    | Some text =>
        Ok {| SingingGenerate.a_text := SingingGenerate.TextTensor text;
              SingingGenerate.a_singing := d !! "singing";
              SingingGenerate.a_label := d !! "label";
              SingingGenerate.a_midi := d !! "midi";
              SingingGenerate.a_duration_phn := d !! "duration_phn";
              SingingGenerate.a_duration_ruled_phn := d !! "duration_ruled_phn";
              SingingGenerate.a_duration_syb := d !! "duration_syb";
              SingingGenerate.a_phn_cnt := d !! "phn_cnt";
              SingingGenerate.a_slur := d !! "slur";
              SingingGenerate.a_pitch := d !! "pitch";
              SingingGenerate.a_energy := d !! "energy";
              SingingGenerate.a_spembs := d !! "spembs";
              SingingGenerate.a_sids := d !! "sids";
              SingingGenerate.a_lids := d !! "lids";
              SingingGenerate.a_discrete_token := d !! "discrete_token";
              SingingGenerate.a_decode_conf := None;
              SingingGenerate.a_kwargs :=
                <["use_singomd" := PBool use_singomd]>
                  (PTensor <$>
                     filter (fun kv => kv.1 ∉ named_parameters) d) |}
    end.

(** Lines 522-640: one utterance. *)
Definition process_utterance (singingGenerate : SingingGenerate.t)
    (use_singomd : bool) (item : loader_item) : M OutputDict :=
  let '(keys, batch) := item in
  first ← lift (match batch with
                | (_, v) :: _ => Ok v
                | [] => Raise StopIteration
                end);
  _bs ← lift (match sizes first with
              | sz0 :: _ => Ok sz0
              | [] => Raise (TypeError "len() of a 0-d tensor")
              end);
  _ ← (if _bs =? 1 then mret () else raise (AssertionError "_bs"));
  (* Change to single sequence and remove the _lengths entries *)
  batch ← lift (mapM (fun '(k, v) => v0 ← select_first v; Ok (k, v0))
                  (filter (fun kv => negb (endswith kv.1 "_lengths")) batch));
  key ← lift (match keys with
              | key :: _ => Ok key
              | [] => Raise (IndexError "list index out of range")
              end);
  a ← lift (bind_arguments batch use_singomd);
  output ← SingingGenerate.__call__ singingGenerate a;
  _ ← lift (match batch with
            | (_, v) :: _ => size0 v
            | [] => Raise StopIteration
            end);
  _ ← match dict_get output "feat_gen" with
      | Some feat_gen =>
          (* standard text2mel model case *)
          _ ← lift (size0 feat_gen);
          _ ← log (WriteChannel "norm" key);
          _ ← log (WriteChannel "speech_shape" key);
          match dict_get output "feat_gen_denorm" with
          | Some _ => log (WriteChannel "denorm" key)
          | None => mret ()
          end
      | None =>
          (* end-to-end text2wav model case *)
          wav ← lift (getitem output "wav");
          match wav with
          | Some wav => _ ← lift (size0 wav); mret ()
          | None => raise (AttributeError "'NoneType' object has no attribute 'size'")
          end
      end;
  _ ← match dict_get output "duration" with
      | Some duration =>
          (* Save duration and fucus rates *)
          if ndim duration =? 0
          then raise (TypeError "iteration over a 0-d array")
          else log (WriteChannel "durations" key)
      | None => mret ()
      end;
  _ ← match dict_get output "focus_rate" with
      | Some focus_rate =>
          if numel focus_rate =? 1 then log (WriteChannel "focus_rates" key)
          else raise (ValueError "only one element tensors can be converted to Python scalars")
      | None => mret ()
      end;
  _ ← match dict_get output "att_w" with
      | Some att_w =>
          (* Plot attention weight *)
          shape ← (if ndim att_w =? 2 then mret (1 :: 1 :: sizes att_w)
                   else if negb (ndim att_w =? 4)
                   then raise (RuntimeError "Must be 2 or 4 dimension")
                   else mret (sizes att_w));
          if bool_decide (shape !! 0 = Some 0 ∨ shape !! 1 = Some 0)
          then raise ZeroDivisionError
          else log (WriteChannel "att_ws" key)
      | None => mret ()
      end;
  _ ← match dict_get output "prob" with
      | Some _ => log (WriteChannel "probs" key)
      | None => mret ()
      end;
  _ ← match dict_get output "wav" with
      | Some _ => log (WriteChannel "wav" key)
      | None => mret ()
      end;
  mret output.

(** Line 521: the loop; the result is the last binding of the local
    variable [output_dict], if the body ran at all. *)
Fixpoint for_loader (singingGenerate : SingingGenerate.t) (use_singomd : bool)
    (loader : list loader_item) (output_dict : option OutputDict)
  : M (option OutputDict) :=
  match loader with
  | [] => mret output_dict
  | item :: rest =>
      output ← process_utterance singingGenerate use_singomd item;
      for_loader singingGenerate use_singomd rest (Some output)
  end.

(** Lines 643-656: one test per channel, on the local variable
    [output_dict]. *)
Definition channel_keys : list (string * string) :=
  [("feat_gen", "norm"); ("feat_gen_denorm", "denorm"); ("att_w", "att_ws");
   ("duration", "durations"); ("focus_rate", "focus_rates");
   ("prob", "probs"); ("wav", "wav")].

Fixpoint remove_unused (output_dict : option OutputDict)
    (channels : list (string * string)) : M unit :=
  match channels with
  | [] => mret ()
  | (k, d) :: rest =>
      output ← match output_dict with
               | Some output => mret output
               | None => raise (UnboundLocalError "output_dict")
               end;
      _ ← (if bool_decide (dict_get output k = None) then rmtree d else mret ());
      remove_unused output_dict rest
  end.

(** Lines 418-656. *)
Definition inference (env : collaborators) (a : inference_args) : M unit :=
  _ ← (if (1 <? batch_size a)%Z
       then raise (NotImplementedError "batch decoding is not implemented")
       else mret ());
  _ ← (if (1 <? ngpu a)%Z
       then raise (NotImplementedError "only single GPU decoding is supported")
       else mret ());
  _ ← log CallBasicConfig;
  (* 1. Set random-seed *)
  _ ← log (CallSetAllRandomSeed (seed a));
  (* 2. Build model *)
  task ← match svs_task a with
         | Some task => mret task
         | None => raise (TypeError "argument svs_task is not a str")
         end;
  singingGenerate ← SingingGenerate.__init__ env (init_args_of a task);
  (* 3. Build data-iterator *)
  _ ← log CallBuildStreamingIterator;
  loader ← lift (build_streaming_iterator env);
  (* 4. Start for-loop *)
  _ ← mkdir "norm";
  _ ← mkdir "denorm";
  _ ← mkdir "speech_shape";
  _ ← mkdir "wav";
  _ ← mkdir "att_ws";
  _ ← mkdir "probs";
  _ ← mkdir "durations";
  _ ← mkdir "focus_rates";
  _ ← log (OpenWriter "norm/feats.scp");
  _ ← log (OpenWriter "denorm/feats.scp");
  _ ← log (OpenWriter "speech_shape/speech_shape");
  _ ← log (OpenWriter "durations/durations");
  _ ← log (OpenWriter "focus_rates/focus_rates");
  _ ← log (OpenWriter "wav/wav.scp");
  output_dict ← for_loader singingGenerate (use_singomd a) loader None;
  (* remove files if those are not included in output dict *)
  remove_unused output_dict channel_keys.

(** ** Relations between the state before and after a computation *)

(** [keeps R m]: every run of [m] takes a state to an [R]-related one,
    whether it returns or raises. *)
Definition keeps (R : relation state) {A} (m : M A) : Prop :=
  ∀ s r s', m s = (r, s') → R s s'.

Definition same_heap : relation state := fun s s' => heap s' = heap s.
Definition same_dirs : relation state := fun s s' => dirs s' = dirs s.

(** The trace grows by events that all satisfy [allowed]. *)
Definition trace_grows (allowed : event → Prop) : relation state :=
  fun s s' => ∃ evs, trace s' = trace s ++ evs ∧ Forall allowed evs.

(** The events that are calls of the model, and of the vocoder. *)
Definition model_calls (evs : list event)
  : list (gmap string pyval * gmap string pyval) :=
  omap (fun e => match e with
                 | CallModelInference batch cfg => Some (batch, cfg)
                 | _ => None
                 end) evs.

Definition vocoder_calls (evs : list event)
  : list (vocoder_input * option Tensor) :=
  omap (fun e => match e with
                 | CallVocoder x pitch => Some (x, pitch)
                 | _ => None
                 end) evs.

Definition is_vocoder_call (e : event) : Prop :=
  match e with CallVocoder _ _ => True | _ => False end.

Definition is_model_call (e : event) : Prop :=
  match e with CallModelInference _ _ => True | _ => False end.

Definition not_vocoder_call (e : event) : Prop := ¬ is_vocoder_call e.
Definition not_model_call (e : event) : Prop := ¬ is_model_call e.

(** ** The documented key sets of the decoding configuration

    Written from the specification (section 4.1, item 1), to be compared
    with what [SingingGenerate.setup_decode_conf] builds. *)
Definition documented_decode_keys (c : svs_class) : gset string :=
  match c with
  | VITS => {[ "use_teacher_forcing"; "noise_scale"; "noise_scale_dur" ]}
  | singing_tacotron =>
      {[ "use_teacher_forcing"; "threshold"; "maxlenratio"; "minlenratio";
         "use_att_constraint"; "use_dynamic_filter"; "forward_window";
         "backward_window" ]}
  | other_svs => {[ "use_teacher_forcing" ]}
  end.

(** ** The layout the "sequence" branch produces

    For flat [data] of length [T * L]: the transpose of the [L]-by-[T]
    view, a [T]-by-[L] tensor over the same storage whose entry
    [(t, l)] is element [l * T + t] of [data]. *)
Definition sequence_mixed (data : list Z) (T L : nat) : Tensor :=
  mkTensor data 0 [T; L] [1; if T =? 0 then 1 else T].

(** ** Stub collaborators and concrete inputs for the examples *)

Module Stub.

Definition feat : Tensor := flat [10; 11; 12; 13]%Z.
Definition att_w : Tensor := mkTensor [1; 0; 0; 1]%Z 0 [2; 2] [2; 1].
Definition wav : Tensor := flat [5; 6; 7]%Z.
Definition wav' : Tensor := flat [8; 9]%Z.
Definition duration : Tensor := flat [1; 1]%Z.
Definition focus_rate : Tensor := mkTensor [1]%Z 0 [] [].
Definition text : Tensor := flat [3; 4]%Z.

(** An acoustic model that returns [out] whatever it is given. *)
Definition acoustic (c : svs_class) (spks : option Z) (out : OutputDict)
  : acoustic_model :=
  {| svs_type := c;
     spks := spks;
     langs := None;
     spk_embed_dim := None;
     model_inference := fun _ => Ok out;
     model_preprocess_fn := fun _ _ => Raise (RuntimeError "not used") |}.

(** A vocoder that returns [wav'] whatever it is given. *)
Definition voc : vocoder_fn := fun _ _ => Ok wav'.

Definition orchestrator (m : acoustic_model) (v : option vocoder_fn)
    (layers : Z) (mix : string) : SingingGenerate.t :=
  {| SingingGenerate.model := m;
     SingingGenerate.duration_calculator := fun _ => Ok (duration, focus_rate);
     SingingGenerate.use_teacher_forcing := false;
     SingingGenerate.vocoder := v;
     SingingGenerate.prefer_normalized_feats := false;
     SingingGenerate.discrete_token_layers := layers;
     SingingGenerate.mix_type := mix;
     SingingGenerate.decode_conf := 0 |}.

(** A call with the text tensor only. *)
Definition call (override : option (gmap string pyval))
    (kwargs : gmap string pyval) : SingingGenerate.call_args :=
  {| SingingGenerate.a_text := SingingGenerate.TextTensor text;
     SingingGenerate.a_singing := None;
     SingingGenerate.a_label := None;
     SingingGenerate.a_midi := None;
     SingingGenerate.a_duration_phn := None;
     SingingGenerate.a_duration_ruled_phn := None;
     SingingGenerate.a_duration_syb := None;
     SingingGenerate.a_phn_cnt := None;
     SingingGenerate.a_slur := None;
     SingingGenerate.a_pitch := None;
     SingingGenerate.a_energy := None;
     SingingGenerate.a_spembs := None;
     SingingGenerate.a_sids := None;
     SingingGenerate.a_lids := None;
     SingingGenerate.a_discrete_token := None;
     SingingGenerate.a_decode_conf := override;
     SingingGenerate.a_kwargs := kwargs |}.

(** Outputs of the acoustic model: features with attention weights;
    features with a waveform; a waveform with attention weights;
    features alone. *)
Definition out_att : OutputDict :=
  <["att_w" := Some att_w]> {[ "feat_gen" := Some feat ]}.
Definition out_feat_wav : OutputDict :=
  <["wav" := Some wav]> {[ "feat_gen" := Some feat ]}.
Definition out_wav_att : OutputDict :=
  <["att_w" := Some att_w]> {[ "wav" := Some wav ]}.
Definition out_feat : OutputDict := {[ "feat_gen" := Some feat ]}.

(** An override of one stored option, with one new option. *)
Definition override : gmap string pyval :=
  <["use_teacher_forcing" := PBool true]> {[ "threshold" := PFloat (3 # 10) ]}.

Definition stored_conf : gmap string pyval :=
  {[ "use_teacher_forcing" := PBool false ]}.

(** A store in which reference [0] holds the stored configuration. *)
Definition store : state := mkState {[ 0 := stored_conf ]} [] ∅.

Definition empty_store : state := mkState ∅ [] ∅.

Definition env (m : acoustic_model) (loader : list loader_item)
  : collaborators :=
  {| build_model_from_file := fun _ => Ok m;
     build_vocoder_from_file := Ok voc;
     DurationCalculator := fun _ => Ok (duration, focus_rate);
     build_streaming_iterator := Ok loader |}.

Definition args (batch_size ngpu : Z) : inference_args :=
  {| batch_size := batch_size;
     ngpu := ngpu;
     seed := 0;
     use_teacher_forcing := false;
     noise_scale := 667 # 1000;
     noise_scale_dur := 8 # 10;
     vocoder_checkpoint := None;
     discrete_token_layers := 1;
     mix_type := "frame";
     svs_task := Some "svs";
     use_singomd := false |}.

(** An acoustic model whose output depends on the text: attention
    weights for a text of two tokens, features alone otherwise. *)
Definition acoustic_by_text : acoustic_model :=
  {| svs_type := other_svs;
     spks := None;
     langs := None;
     spk_embed_dim := None;
     model_inference := fun kwargs =>
       match kwargs !! "text" with
       | Some (PTensor x) =>
           if length (storage x) =? 2 then Ok out_att else Ok out_feat
       | _ => Raise (TypeError "text")
       end;
     model_preprocess_fn := fun _ _ => Raise (RuntimeError "not used") |}.

(** A stored configuration with two options, and a store that holds
    it under reference [0]. *)
Definition stored_two : gmap string pyval :=
  <["noise_scale" := PFloat (667 # 1000)]>
    {[ "use_teacher_forcing" := PBool false ]}.

Definition store_two : state := mkState {[ 0 := stored_two ]} [] ∅.

(** An acoustic model whose output depends on the decoding options it
    is given with the text: attention weights for [override] merged on
    [stored_two] (the overridden option, the retained one and the new
    one), features alone for [stored_two] as it is, and an error for
    anything else. *)
Definition acoustic_by_conf : acoustic_model :=
  {| svs_type := other_svs;
     spks := None;
     langs := None;
     spk_embed_dim := None;
     model_inference := fun kwargs =>
       match kwargs !! "text", kwargs !! "use_teacher_forcing",
             kwargs !! "noise_scale", kwargs !! "threshold" with
       | Some (PTensor _), Some (PBool true), Some (PFloat _), Some (PFloat _) =>
           Ok out_att
       | Some (PTensor _), Some (PBool false), Some (PFloat _), None =>
           Ok out_feat
       | _, _, _, _ => Raise (TypeError "unexpected keyword arguments")
       end;
     model_preprocess_fn := fun _ _ => Raise (RuntimeError "not used") |}.

(** What the loader yields for one utterance: the text as a mini-batch
    of one row, and its length. *)
Definition item (key : string) (tokens : list Z) : loader_item :=
  ([key],
   [("text", mkTensor tokens 0 [1; length tokens] [length tokens; 1]);
    ("text_lengths", flat [Z.of_nat (length tokens)])]).

(** Six tokens, and a hundred. *)
Definition tokens6 : list Z := [0; 1; 2; 3; 4; 5]%Z.
Definition tokens100 : list Z := Z.of_nat <$> seq 0 100.

End Stub.

(** The eight directories [inference] creates. *)
Definition all_channels : gset string :=
  {[ "norm"; "denorm"; "speech_shape"; "wav"; "att_ws"; "probs";
     "durations"; "focus_rates" ]}.




(** ** The conditioning slots

    The keywords [__call__] can pass to the acoustic model: the names
    used at lines 233-264. *)
Definition conditioning_slots : list string :=
  ["text"; "singing"; "label"; "midi"; "duration_phn"; "duration_ruled_phn";
   "duration_syb"; "pitch"; "phn_cnt"; "slur"; "energy"; "spembs"; "sids";
   "lids"; "discrete_token"].

(** What holds of every batch [prepare_batch] builds. *)
Definition batch_well_formed (batch : gmap string pyval) : Prop :=
  is_Some (batch !! "text")
  ∧ ∀ k v, batch !! k = Some v →
           k ∈ conditioning_slots ∧ (k ≠ "text" → v ≠ PNone).

(** Every conditioning slot the model needs is supplied (lines 209-214
    raise otherwise). *)
Definition needed_slots_supplied (self : SingingGenerate.t)
    (a : SingingGenerate.call_args) : Prop :=
  (SingingGenerate.use_sids self = true → is_Some (SingingGenerate.a_sids a))
  ∧ (SingingGenerate.use_lids self = true → is_Some (SingingGenerate.a_lids a))
  ∧ (SingingGenerate.use_spembs self = true
     → is_Some (SingingGenerate.a_spembs a)).

(** The decorator of [__call__] (line 186) lets a dictionary [text]
    through as a [Dict[str, Tuple]] only: a dictionary all of whose
    values are tuples is accepted, whichever of its items the check
    looks at. *)
Definition is_tuple (v : pyval) : bool :=
  match v with PTuple _ => true | _ => false end.

Definition values_are_tuples (text : gmap string pyval) : Prop :=
  map_Forall (fun _ v => is_tuple v = true) text.

(** The entries of the preprocessed data that the dictionary form of
    [text] puts in place of the arguments of the same name (lines
    226-232). *)
Definition preprocessed_slots : list string :=
  ["label"; "midi"; "duration_phn"; "duration_ruled_phn"; "duration_syb";
   "phn_cnt"; "slur"].

(** ** The feature handed to the vocoder

    Lines 281-308 as one function: the selected feature, then, with
    more than one token layer, the layout of [mix_type] and the
    decomposition of [use_singomd].  [SingingGenerate.apply_vocoder]
    runs these steps and then calls the vocoder. *)
Definition vocoder_feature (self : SingingGenerate.t)
    (kwargs : gmap string pyval) (output : OutputDict)
  : result vocoder_input :=
  input_feat ← SingingGenerate.select_input_feat self output;
  if (1 <? SingingGenerate.discrete_token_layers self)%Z then
    input_feat ← SingingGenerate.mix_layers
                   (SingingGenerate.discrete_token_layers self)
                   (SingingGenerate.mix_type self) input_feat;
    match kwargs !! "use_singomd" with
    | Some (PBool true) => SingingGenerate.singomd_feats input_feat
    | _ => Ok input_feat
    end
  else Ok input_feat.

(** The output of the model once lines 276-277 have run. *)
Definition without_duration (output : OutputDict) : OutputDict :=
  <["focus_rate" := None]> (<["duration" := None]> output).

(** ** What one utterance writes

    The writes of lines 540-640 for an output the runner accepts, in
    order: the features and their shape (and the denormalized features
    when both are there), the durations, the focus rate, the attention
    plot, the probability plot, the waveform. *)
Definition write_if (present : option Tensor) (dir key : string) : list event :=
  match present with
  | Some _ => [WriteChannel dir key]
  | None => []
  end.

Definition utterance_writes (key : string) (output : OutputDict) : list event :=
  match dict_get output "feat_gen" with
  | Some _ =>
      [WriteChannel "norm" key; WriteChannel "speech_shape" key]
      ++ write_if (dict_get output "feat_gen_denorm") "denorm" key
  | None => []
  end
  ++ write_if (dict_get output "duration") "durations" key
  ++ write_if (dict_get output "focus_rate") "focus_rates" key
  ++ write_if (dict_get output "att_w") "att_ws" key
  ++ write_if (dict_get output "prob") "probs" key
  ++ write_if (dict_get output "wav") "wav" key.

(** ** More concrete inputs for the examples *)

Module Sample.

(** A call whose [text] is a dictionary, every other argument [None]. *)
Definition call_dict (text : gmap string pyval) : SingingGenerate.call_args :=
  {| SingingGenerate.a_text := SingingGenerate.TextDict text;
     SingingGenerate.a_singing := None;
     SingingGenerate.a_label := Some Stub.wav;
     SingingGenerate.a_midi := None;
     SingingGenerate.a_duration_phn := None;
     SingingGenerate.a_duration_ruled_phn := None;
     SingingGenerate.a_duration_syb := None;
     SingingGenerate.a_phn_cnt := None;
     SingingGenerate.a_slur := None;
     SingingGenerate.a_pitch := None;
     SingingGenerate.a_energy := None;
     SingingGenerate.a_spembs := None;
     SingingGenerate.a_sids := None;
     SingingGenerate.a_lids := None;
     SingingGenerate.a_discrete_token := None;
     SingingGenerate.a_decode_conf := None;
     SingingGenerate.a_kwargs := ∅ |}.

(** What the preprocessing function returns: a label, and [None] for
    the slur flags. *)
Definition data : gmap string pyval :=
  list_to_map
    [("label", PTensor Stub.text); ("midi", PTensor Stub.feat);
     ("duration_phn", PTensor Stub.duration);
     ("duration_ruled_phn", PTensor Stub.duration);
     ("duration_syb", PTensor Stub.duration);
     ("phn_cnt", PTensor Stub.duration); ("slur", PNone)].

(** An acoustic model with a preprocessing function. *)
Definition acoustic (out : OutputDict) : acoustic_model :=
  {| svs_type := other_svs;
     spks := None;
     langs := None;
     spk_embed_dim := None;
     model_inference := fun _ => Ok out;
     model_preprocess_fn := fun _ _ => Ok data |}.

Definition score_and_label : gmap string pyval :=
  <["label" := PObject "label"]> {[ "score" := PObject "score" ]}.

(** A pitch curve with two dimensions. *)
Definition pitch_2d : Tensor := mkTensor [1; 2; 3; 4]%Z 0 [2; 2] [2; 1].

Definition out_feat_pitch_2d : OutputDict :=
  <["pitch" := Some pitch_2d]> {[ "feat_gen" := Some Stub.feat ]}.

(** Five tokens: not a multiple of two layers. *)
Definition tokens5 : list Z := [0; 1; 2; 3; 4]%Z.

Definition out_tokens5 : OutputDict := {[ "feat_gen" := Some (flat tokens5) ]}.

(** A mini-batch of two rows. *)
Definition two_rows : loader_item :=
  (["utt1"], [("text", mkTensor [3; 4; 5; 6]%Z 0 [2; 2] [2; 1])]).

End Sample.

(** * Reasoning about computations in [M] *)

Lemma bind_inv {A B} (m : M A) (f : A → M B) s r s' :
  (m ≫= f) s = (r, s') →
  (∃ a s1, m s = (Ok a, s1) ∧ f a s1 = (r, s'))
  ∨ (∃ e, m s = (Raise e, s') ∧ r = Raise e).
Proof.
  unfold mbind, M_bind. destruct (m s) as [[a|e] s1]; intros H.
  - left. eauto.
  - right. inversion H; subst. eauto.
Qed.

Lemma bind_ok {A B} (m : M A) (f : A → M B) s a s1 :
  m s = (Ok a, s1) → (m ≫= f) s = f a s1.
Proof. intros H. unfold mbind, M_bind. by rewrite H. Qed.

Lemma bind_raise {A B} (m : M A) (f : A → M B) s e s1 :
  m s = (Raise e, s1) → (m ≫= f) s = (Raise e, s1).
Proof. intros H. unfold mbind, M_bind. by rewrite H. Qed.

Section keeps.
Context (R : relation state) `{!PreOrder R}.

Lemma keeps_ret {A} (a : A) : keeps R (mret a).
Proof. intros s r s' [= <- <-]. reflexivity. Qed.

Lemma keeps_raise {A} e : keeps R (raise e : M A).
Proof. intros s r s' [= <- <-]. reflexivity. Qed.

Lemma keeps_lift {A} (x : result A) : keeps R (lift x).
Proof. intros s r s' [= <- <-]. reflexivity. Qed.

Lemma keeps_deref l : keeps R (deref l).
Proof. intros s r s' [= <- <-]. reflexivity. Qed.

Lemma keeps_bind {A B} (m : M A) (f : A → M B) :
  keeps R m → (∀ a, keeps R (f a)) → keeps R (m ≫= f).
Proof.
  intros Hm Hf s r s' H.
  apply bind_inv in H as [(a & s1 & H1 & H2)|(e & H1 & _)].
  - etrans; [by eapply Hm | by eapply Hf].
  - by eapply Hm.
Qed.
End keeps.

#[global] Instance same_heap_preorder : PreOrder same_heap.
Proof. split; unfold same_heap; [done | intros ??? ; congruence]. Qed.

#[global] Instance same_dirs_preorder : PreOrder same_dirs.
Proof. split; unfold same_dirs; [done | intros ???; congruence]. Qed.

#[global] Instance trace_grows_preorder allowed : PreOrder (trace_grows allowed).
Proof.
  split.
  - intros s. exists []. by rewrite app_nil_r.
  - intros s1 s2 s3 (e1 & H1 & F1) (e2 & H2 & F2). exists (e1 ++ e2).
    rewrite H2, H1, <- app_assoc. split; [done | by apply Forall_app].
Qed.

Lemma keeps_log_heap e : keeps same_heap (log e).
Proof. by intros s r s' [= <- <-]. Qed.

Lemma keeps_log_dirs e : keeps same_dirs (log e).
Proof. by intros s r s' [= <- <-]. Qed.

Lemma keeps_log_trace (allowed : event → Prop) e :
  allowed e → keeps (trace_grows allowed) (log e).
Proof. intros He s r s' [= <- <-]. exists [e]. split; [done | by constructor]. Qed.

Lemma keeps_alloc_dirs d : keeps same_dirs (alloc d).
Proof. by intros s r s' [= <- <-]. Qed.

Lemma keeps_alloc_trace allowed d : keeps (trace_grows allowed) (alloc d).
Proof. intros s r s' [= <- <-]. exists []. by rewrite app_nil_r. Qed.

Lemma keeps_dict_update_dirs l d : keeps same_dirs (dict_update l d).
Proof. by intros s r s' [= <- <-]. Qed.

Lemma keeps_dict_update_trace allowed l d :
  keeps (trace_grows allowed) (dict_update l d).
Proof. intros s r s' [= <- <-]. exists []. by rewrite app_nil_r. Qed.

Ltac keeps_step :=
  lazymatch goal with
  | |- keeps _ (mbind _ _) => apply keeps_bind; [apply _ | | intros ?]
  | |- keeps _ (mret _) => apply keeps_ret; apply _
  | |- keeps _ (raise _) => apply keeps_raise; apply _
  | |- keeps _ (lift _) => apply keeps_lift; apply _
  | |- keeps _ (deref _) => apply keeps_deref; apply _
  | |- keeps same_heap (log _) => apply keeps_log_heap
  | |- keeps same_dirs (log _) => apply keeps_log_dirs
  | |- keeps same_dirs (alloc _) => apply keeps_alloc_dirs
  | |- keeps same_dirs (dict_update _ _) => apply keeps_dict_update_dirs
  | |- keeps (trace_grows _) (alloc _) => apply keeps_alloc_trace
  | |- keeps (trace_grows _) (dict_update _ _) => apply keeps_dict_update_trace
  | |- keeps (trace_grows _) (log _) => apply keeps_log_trace; try done
  | |- keeps _ (match ?x with _ => _ end) => destruct x
  end.

(** * Tensor views

    What [view] computes for the shapes the synthesis call asks for. *)

Lemma infer_scan_nonneg (d : nat) rest i newsize infer_dim :
  infer_scan (Z.of_nat d :: rest) i newsize infer_dim
  = infer_scan rest (S i) (newsize * d) infer_dim.
Proof.
  cbn [infer_scan].
  destruct (Z.eqb_spec (Z.of_nat d) (-1)) as [E|_]; [lia|].
  destruct (Z.leb_spec 0 (Z.of_nat d)) as [_|E]; [|lia].
  by rewrite Nat2Z.id.
Qed.

Lemma infer_size_first (L n : nat) :
  0 < L → n mod L = 0 →
  infer_size [-1; Z.of_nat L]%Z n = Ok [n / L; L].
Proof.
  intros HL Hmod. unfold infer_size.
  change (infer_scan [-1; Z.of_nat L]%Z 0 1 None)
    with (infer_scan [Z.of_nat L] 1 1 (Some 0)).
  rewrite infer_scan_nonneg. cbn [infer_scan mbind result_bind].
  rewrite Nat.mul_1_l, Hmod, Nat.eqb_refl.
  rewrite (bool_decide_eq_true_2 _ (mk_is_Some _ _ eq_refl)).
  destruct (Nat.ltb_spec 0 L) as [_|]; [|lia].
  rewrite orb_true_r.
  destruct (Nat.eqb_spec L 0) as [|_]; [lia|].
  cbn. by rewrite Nat2Z.id.
Qed.

Lemma infer_size_second (L n : nat) :
  0 < L → n mod L = 0 →
  infer_size [Z.of_nat L; -1]%Z n = Ok [L; n / L].
Proof.
  intros HL Hmod. unfold infer_size.
  rewrite infer_scan_nonneg.
  change (infer_scan [-1]%Z 1 (1 * L) None) with (Ok (1 * L, Some 1) : result _).
  cbn [mbind result_bind].
  rewrite Nat.mul_1_l, Hmod, Nat.eqb_refl.
  rewrite (bool_decide_eq_true_2 _ (mk_is_Some _ _ eq_refl)).
  destruct (Nat.ltb_spec 0 L) as [_|]; [|lia].
  rewrite orb_true_r.
  destruct (Nat.eqb_spec L 0) as [|_]; [lia|].
  cbn. by rewrite Nat2Z.id.
Qed.

Lemma fill_chunk_take base tn vn v vs acc :
  vn < tn ∨ v = 1 →
  fill_chunk base tn vn (v :: vs) acc
  = fill_chunk base tn (vn * v) vs (vn * base :: acc).
Proof.
  intros H. cbn [fill_chunk].
  destruct (Nat.ltb_spec vn tn), (Nat.eqb_spec v 1); try done. lia.
Qed.

Lemma fill_chunk_stop base tn vn v vs acc :
  tn ≤ vn → v ≠ 1 →
  fill_chunk base tn vn (v :: vs) acc = (vn, v :: vs, acc).
Proof.
  intros H1 H2. cbn [fill_chunk].
  destruct (Nat.ltb_spec vn tn), (Nat.eqb_spec v 1); try done; lia.
Qed.

(** A one-dimensional contiguous tensor can be viewed under any shape
    of two dimensions with the same number of elements. *)
Lemma computeStride_flat n a b :
  1 < n → a * b = n → computeStride [n] [1] [a; b] = Some [b; 1].
Proof.
  intros Hn Hab. unfold computeStride.
  replace (numel_of [n] =? 0) with false
    by (symmetry; apply Nat.eqb_neq; unfold numel_of; simpl; lia).
  change (reverse (zip [n] [1])) with [(n, 1)].
  change (reverse [a; b]) with [b; a].
  change (default 1 (last [1])) with 1.
  cbn [chunks].
  rewrite fill_chunk_take by lia.
  rewrite fill_chunk_take by (destruct (decide (a = 1)); [by right | left; nia]).
  cbn [fill_chunk].
  replace (1 * b * a =? 1 * n) with true by (symmetry; apply Nat.eqb_eq; lia).
  f_equal. repeat (f_equal; try lia).
Qed.

Lemma computeStride_flat_empty a b :
  computeStride [0] [1] [a; b] = Some [Nat.max b 1; 1].
Proof.
  unfold computeStride. change (numel_of [0] =? 0) with true. cbv iota.
  rewrite bool_decide_eq_false_2 by discriminate.
  cbn [zero_numel_strides]. by rewrite Nat.mul_1_r.
Qed.

(** The transpose of a contiguous [L]-by-[T] tensor, viewed under its
    own shape [T]-by-[L]. *)
Lemma computeStride_transposed T L :
  1 < T → 1 < L → computeStride [T; L] [1; T] [T; L] = Some [1; T].
Proof.
  intros HT HL. unfold computeStride.
  replace (numel_of [T; L] =? 0) with false
    by (symmetry; apply Nat.eqb_neq; unfold numel_of; simpl; nia).
  change (reverse (zip [T; L] [1; T])) with [(L, T); (T, 1)].
  change (reverse [T; L]) with [L; T].
  change (default 1 (last [1; T])) with T.
  cbn [chunks].
  replace (negb (T =? 1) && negb (1 =? 1 * L * T)) with true; cycle 1.
  { symmetry. apply andb_true_iff. split; apply negb_true_iff, Nat.eqb_neq; nia. }
  rewrite fill_chunk_take by lia.
  rewrite fill_chunk_stop by lia.
  replace (1 * L =? 1 * L) with true by (symmetry; apply Nat.eqb_refl).
  rewrite fill_chunk_take by lia.
  cbn [fill_chunk].
  replace (1 * T =? 1 * T) with true by (symmetry; apply Nat.eqb_refl).
  f_equal. repeat (f_equal; try lia).
Qed.

Lemma computeStride_row L :
  1 < L → computeStride [1; L] [1; 1] [1; L] = Some [L; 1].
Proof.
  intros HL. unfold computeStride.
  replace (numel_of [1; L] =? 0) with false
    by (symmetry; apply Nat.eqb_neq; unfold numel_of; simpl; nia).
  change (reverse (zip [1; L] [1; 1])) with [(L, 1); (1, 1)].
  change (reverse [1; L]) with [L; 1].
  change (default 1 (last [1; 1])) with 1.
  cbn [chunks]. change (negb (1 =? 1)) with false. cbn [andb].
  rewrite fill_chunk_take by lia.
  rewrite fill_chunk_take by lia.
  cbn [fill_chunk].
  replace (1 * L * 1 =? 1 * L * 1) with true by (symmetry; apply Nat.eqb_refl).
  f_equal. repeat (f_equal; try lia).
Qed.

Lemma computeStride_same_empty L strs :
  computeStride [0; L] strs [0; L] = Some strs.
Proof.
  unfold computeStride. change (numel_of [0; L] =? 0) with true. cbv iota.
  by rewrite bool_decide_eq_true_2.
Qed.

Lemma tensor_get_2d data off T L s0 s1 t l :
  t < T → l < L →
  tensor_get (mkTensor data off [T; L] [s0; s1]) [t; l]
  = data !! (off + t * s0 + l * s1).
Proof.
  intros Ht Hl. unfold tensor_get. cbn [sizes strides offset storage position].
  destruct (Nat.ltb_spec t T); [|lia]. destruct (Nat.ltb_spec l L); [|lia].
  reflexivity.
Qed.

(** A shape whose entries fit in 64 bits passes the unpacking. *)
Lemma view_fits t shape :
  forallb fits_int64 shape = true →
  view t shape
  = (newshape ← infer_size shape (numel t);
     match computeStride (sizes t) (strides t) newshape with
     | Some newstride => Ok (mkTensor (storage t) (offset t) newshape newstride)
     | None =>
         Raise (RuntimeError "view size is not compatible with input tensor's size and stride")
     end).
Proof. unfold view. by intros ->. Qed.

Lemma view_overflow t shape :
  forallb fits_int64 shape = false →
  ∃ msg, view t shape = Raise (TypeError msg).
Proof. unfold view. intros ->. eauto. Qed.

Lemma fits_int64_nat (L : nat) :
  (Z.of_nat L < 2 ^ 63)%Z → fits_int64 (Z.of_nat L) = true.
Proof.
  intros H. unfold fits_int64. apply andb_true_iff. split.
  - apply Z.leb_le. lia.
  - by apply Z.ltb_lt.
Qed.

Lemma fits_frame (L : nat) :
  (Z.of_nat L < 2 ^ 63)%Z → forallb fits_int64 [-1; Z.of_nat L]%Z = true.
Proof. intros H. cbn [forallb]. by rewrite fits_int64_nat. Qed.

Lemma fits_sequence (L : nat) :
  (Z.of_nat L < 2 ^ 63)%Z → forallb fits_int64 [Z.of_nat L; -1]%Z = true.
Proof. intros H. cbn [forallb]. by rewrite fits_int64_nat. Qed.

Section layers.
Context (data : list Z) (T L : nat).
Hypothesis (HL : 1 < L) (Hfit : (Z.of_nat L < 2 ^ 63)%Z).
Hypothesis (Hlen : length data = T * L).

Lemma numel_flat : numel (flat data) = T * L.
Proof. unfold numel, flat, numel_of. simpl. lia. Qed.

Lemma view_frame_flat :
  view (flat data) [-1; Z.of_nat L]%Z = Ok (mkTensor data 0 [T; L] [L; 1]).
Proof.
  rewrite view_fits by (by apply fits_frame). rewrite numel_flat.
  rewrite infer_size_first by (try apply Nat.Div0.mod_mul; lia).
  rewrite Nat.div_mul by lia. cbn [mbind result_bind sizes strides flat].
  rewrite Hlen. destruct T as [|T'].
  - change (0 * L) with 0. rewrite computeStride_flat_empty.
    cbn [storage offset]. by rewrite Nat.max_l by lia.
  - by rewrite computeStride_flat by nia.
Qed.

Lemma view_sequence_flat :
  view (flat data) [Z.of_nat L; -1]%Z
  = Ok (mkTensor data 0 [L; T] [if T =? 0 then 1 else T; 1]).
Proof.
  rewrite view_fits by (by apply fits_sequence). rewrite numel_flat.
  rewrite infer_size_second by (try apply Nat.Div0.mod_mul; lia).
  rewrite Nat.div_mul by lia. cbn [mbind result_bind sizes strides flat].
  rewrite Hlen. destruct T as [|T'].
  - change (0 * L) with 0. by rewrite computeStride_flat_empty.
  - by rewrite computeStride_flat by nia.
Qed.

Lemma mix_frame_flat :
  SingingGenerate.mix_layers (Z.of_nat L) "frame" (FeatTensor (flat data))
  = Ok (FeatTensor (mkTensor data 0 [T; L] [L; 1])).
Proof.
  unfold SingingGenerate.mix_layers. cbn [bool_decide decide_rel].
  rewrite bool_decide_eq_true_2 by done.
  cbn [SingingGenerate.as_tensor mbind result_bind].
  by rewrite view_frame_flat.
Qed.

Lemma mix_sequence_flat :
  SingingGenerate.mix_layers (Z.of_nat L) "sequence" (FeatTensor (flat data))
  = Ok (FeatTensor (sequence_mixed data T L)).
Proof.
  unfold SingingGenerate.mix_layers.
  rewrite bool_decide_eq_false_2 by done.
  rewrite bool_decide_eq_true_2 by done.
  cbn [SingingGenerate.as_tensor mbind result_bind].
  by rewrite view_sequence_flat.
Qed.

Lemma mix_frame_sequence_mixed :
  ∃ strs,
    SingingGenerate.mix_layers (Z.of_nat L) "frame" (FeatTensor (sequence_mixed data T L))
    = Ok (FeatTensor (mkTensor data 0 [T; L] strs))
    ∧ ∀ t l, t < T → l < L →
        tensor_get (mkTensor data 0 [T; L] strs) [t; l]
        = tensor_get (sequence_mixed data T L) [t; l].
Proof.
  unfold SingingGenerate.mix_layers. rewrite bool_decide_eq_true_2 by done.
  cbn [SingingGenerate.as_tensor mbind result_bind].
  rewrite view_fits by (by apply fits_frame). unfold sequence_mixed.
  replace (numel (mkTensor data 0 [T; L] [1; if T =? 0 then 1 else T]))
    with (T * L) by (unfold numel, numel_of; simpl; lia).
  rewrite infer_size_first by (try apply Nat.Div0.mod_mul; lia).
  rewrite Nat.div_mul by lia. cbn [mbind result_bind sizes strides].
  destruct T as [|[|T']].
  - rewrite computeStride_same_empty. eexists. split; [reflexivity|]. lia.
  - change (1 =? 0) with false. cbv iota. rewrite computeStride_row by done.
    eexists. split; [reflexivity|].
    intros t l Ht Hl'. rewrite !tensor_get_2d by done. f_equal. lia.
  - change (S (S T') =? 0) with false. cbv iota.
    rewrite computeStride_transposed by lia.
    eexists. split; reflexivity || done.
Qed.
End layers.

(** The claim the code refutes: for six tokens in two layers, the
    "frame" reshape of the "sequence"-reshaped tensor is that tensor
    again, with rows (0,3) (1,4) (2,5); the original in [T, L] form has
    rows (0,1) (2,3) (4,5). *)
Lemma frame_of_sequence_round_trip_counterexample :
  ∃ xs xfs xf,
    SingingGenerate.mix_layers 2 "sequence" (FeatTensor (flat Stub.tokens6))
    = Ok (FeatTensor xs)
    ∧ SingingGenerate.mix_layers 2 "frame" (FeatTensor xs) = Ok (FeatTensor xfs)
    ∧ SingingGenerate.mix_layers 2 "frame" (FeatTensor (flat Stub.tokens6))
      = Ok (FeatTensor xf)
    ∧ sizes xfs = [3; 2] ∧ sizes xf = [3; 2]
    ∧ tensor_elements xfs = Some <$> [0; 3; 1; 4; 2; 5]%Z
    ∧ tensor_elements xf = Some <$> Stub.tokens6
    ∧ tensor_elements xfs ≠ tensor_elements xf.
Proof.
  eexists _, _, _.
  split; [vm_compute; reflexivity|].
  split; [vm_compute; reflexivity|].
  split; [vm_compute; reflexivity|].
  repeat split; try reflexivity. discriminate.
Qed.

(** C8, as the code has it. For a flat tensor of [T * L] elements and
    [L > 1] layers, [L] below [2^63] so that it can be a size of a
    view: "frame" gives shape [T, L] with entry [(t, l)] the
    element [t * L + l]; "sequence" views the tensor as [L, T] and
    transposes it, which gives shape [T, L] with entry [(t, l)] the
    element [l * T + t]; and "frame" applied to that result gives the
    same [T, L] tensor again, entry [(t, l)] still the element
    [l * T + t]. *)
Theorem mix_layers_frame_and_sequence (data : list Z) (T L : nat) :
  1 < L → (Z.of_nat L < 2 ^ 63)%Z → length data = T * L →
  ∃ xf v xs xfs,
    SingingGenerate.mix_layers (Z.of_nat L) "frame" (FeatTensor (flat data))
    = Ok (FeatTensor xf)
    ∧ view (flat data) [Z.of_nat L; -1]%Z = Ok v
    ∧ sizes v = [L; T]
    ∧ transpose v 0 1 = Ok xs
    ∧ SingingGenerate.mix_layers (Z.of_nat L) "sequence" (FeatTensor (flat data))
      = Ok (FeatTensor xs)
    ∧ SingingGenerate.mix_layers (Z.of_nat L) "frame" (FeatTensor xs)
      = Ok (FeatTensor xfs)
    ∧ sizes xf = [T; L] ∧ sizes xs = [T; L] ∧ sizes xfs = [T; L]
    ∧ ∀ t l, t < T → l < L →
        tensor_get xf [t; l] = data !! (t * L + l)
        ∧ tensor_get xs [t; l] = data !! (l * T + t)
        ∧ tensor_get xfs [t; l] = data !! (l * T + t).
Proof.
  intros HL Hfit Hlen.
  destruct (mix_frame_sequence_mixed data T L HL Hfit Hlen)
    as (strs & Hfs & Hget).
  exists (mkTensor data 0 [T; L] [L; 1]),
    (mkTensor data 0 [L; T] [if T =? 0 then 1 else T; 1]),
    (sequence_mixed data T L), (mkTensor data 0 [T; L] strs).
  split; [by apply mix_frame_flat|].
  split; [by apply view_sequence_flat|].
  split; [reflexivity|].
  split; [reflexivity|].
  split; [by apply mix_sequence_flat|].
  split; [exact Hfs|].
  do 3 (split; [reflexivity|]).
  intros t l Ht Hl.
  assert (tensor_get (sequence_mixed data T L) [t; l] = data !! (l * T + t))
    as Hseq.
  { unfold sequence_mixed. rewrite tensor_get_2d by done.
    destruct (Nat.eqb_spec T 0); [lia|]. f_equal. lia. }
  split; [rewrite tensor_get_2d by done; f_equal; lia|].
  split; [exact Hseq|]. by rewrite Hget.
Qed.

Lemma mix_layers_frame_and_sequence_witness :
  ∃ xf v xs xfs,
    SingingGenerate.mix_layers (Z.of_nat 2) "frame"
      (FeatTensor (flat Stub.tokens100)) = Ok (FeatTensor xf)
    ∧ view (flat Stub.tokens100) [Z.of_nat 2; -1]%Z = Ok v
    ∧ sizes v = [2; 50]
    ∧ transpose v 0 1 = Ok xs
    ∧ SingingGenerate.mix_layers (Z.of_nat 2) "sequence"
        (FeatTensor (flat Stub.tokens100)) = Ok (FeatTensor xs)
    ∧ SingingGenerate.mix_layers (Z.of_nat 2) "frame" (FeatTensor xs)
      = Ok (FeatTensor xfs)
    ∧ sizes xf = [50; 2] ∧ sizes xs = [50; 2] ∧ sizes xfs = [50; 2]
    ∧ ∀ t l, t < 50 → l < 2 →
        tensor_get xf [t; l] = Stub.tokens100 !! (t * 2 + l)
        ∧ tensor_get xs [t; l] = Stub.tokens100 !! (l * 50 + t)
        ∧ tensor_get xfs [t; l] = Stub.tokens100 !! (l * 50 + t).
Proof.
  apply (mix_layers_frame_and_sequence Stub.tokens100 50 2);
    [lia | reflexivity | reflexivity].
Defined.

(** * The synthesis call *)

(** ** Missing conditioning slots *)

Lemma check_inputs_state self a s r s' :
  SingingGenerate.check_inputs self a s = (r, s') → s' = s.
Proof.
  unfold SingingGenerate.check_inputs, mbind, M_bind, raise, mret, M_ret.
  repeat match goal with
         | |- context [if ?b then _ else _] => destruct b
         end; by intros [= _ <-].
Qed.

Lemma check_inputs_missing self a s :
  (spks (SingingGenerate.model self) ≠ None ∧ SingingGenerate.a_sids a = None)
  ∨ (langs (SingingGenerate.model self) ≠ None ∧ SingingGenerate.a_lids a = None)
  ∨ (spk_embed_dim (SingingGenerate.model self) ≠ None
     ∧ SingingGenerate.a_spembs a = None) →
  ∃ msg, SingingGenerate.check_inputs self a s = (Raise (RuntimeError msg), s).
Proof.
  intros H.
  unfold SingingGenerate.check_inputs, SingingGenerate.use_sids,
    SingingGenerate.use_lids, SingingGenerate.use_spembs,
    mbind, M_bind, raise, mret, M_ret.
  repeat case_bool_decide; simpl; eauto; naive_solver.
Qed.

(** C3. A synthesis call that lacks a needed conditioning slot ([sids]
    is [None] while the model defines speakers, or [lids] is [None]
    while it defines languages, or [spembs] is [None] while it defines
    an embedding dimension) raises [RuntimeError]; the state is the one
    before the call, so neither the acoustic model nor any other
    collaborator has been invoked. *)
Theorem missing_slot_is_RuntimeError_before_model self a s :
  (spks (SingingGenerate.model self) ≠ None ∧ SingingGenerate.a_sids a = None)
  ∨ (langs (SingingGenerate.model self) ≠ None ∧ SingingGenerate.a_lids a = None)
  ∨ (spk_embed_dim (SingingGenerate.model self) ≠ None
     ∧ SingingGenerate.a_spembs a = None) →
  ∃ msg, SingingGenerate.__call__ self a s = (Raise (RuntimeError msg), s).
Proof.
  intros H. destruct (check_inputs_missing self a s H) as [msg Hc].
  exists msg.
  unfold SingingGenerate.__call__, SingingGenerate.run_model.
  erewrite bind_raise; [done|]. by erewrite bind_raise.
Qed.

Lemma missing_slot_witness :
  ∃ msg,
    SingingGenerate.__call__
      (Stub.orchestrator (Stub.acoustic other_svs (Some 4%Z) ∅) None 1 "frame")
      (Stub.call None ∅) Stub.store
    = (Raise (RuntimeError msg), Stub.store).
Proof.
  apply missing_slot_is_RuntimeError_before_model.
  left. split; [discriminate | reflexivity].
Defined.

(** ** The decoding configuration *)

Lemma setup_decode_conf_keys c a :
  dom (SingingGenerate.setup_decode_conf c a) = documented_decode_keys c.
Proof.
  destruct c; unfold SingingGenerate.setup_decode_conf; simpl;
    rewrite ?dom_insert_L, dom_empty_L; set_solver.
Qed.

Lemma init_decode_conf env a s self s' :
  SingingGenerate.__init__ env a s = (Ok self, s') →
  heap s' !! SingingGenerate.decode_conf self
  = Some (SingingGenerate.setup_decode_conf
            (svs_type (SingingGenerate.model self)) a).
Proof.
  unfold SingingGenerate.__init__. intros H.
  repeat (apply bind_inv in H as [(? & ? & ? & H)|(? & _ & ?)]; [|done]).
  unfold alloc, mret, M_ret in *. simplify_eq. simpl.
  apply lookup_insert_eq.
Qed.

(** Construction does not depend on the class of the model: with a
    supported task, a model file that loads, and a vocoder that loads
    when a checkpoint is given, [__init__] returns, with the model that
    was loaded. *)
Lemma init_returns_loaded env a s m :
  arg_svs_task a = "svs" ∨ arg_svs_task a = "gan_svs" →
  build_model_from_file env (arg_svs_task a) = Ok m →
  (is_Some (arg_vocoder_checkpoint a) →
   is_ok (build_vocoder_from_file env) = true) →
  ∃ self s', SingingGenerate.__init__ env a s = (Ok self, s')
             ∧ SingingGenerate.model self = m.
Proof.
  intros Ht Hm Hv. unfold SingingGenerate.__init__.
  assert ((if bool_decide (arg_svs_task a = "svs") then mret ()
           else if bool_decide (arg_svs_task a = "gan_svs") then mret ()
           else raise (ValueError "Unsupported task")) s = (Ok (), s)) as H0.
  { destruct Ht as [-> | ->]; reflexivity. }
  erewrite bind_ok by exact H0.
  erewrite bind_ok by reflexivity.
  erewrite bind_ok by (unfold lift; rewrite Hm; reflexivity).
  destruct (arg_vocoder_checkpoint a) as [ckpt|].
  - destruct (build_vocoder_from_file env) as [v|e];
      [|by specialize (Hv (mk_is_Some _ _ eq_refl))].
    erewrite bind_ok by reflexivity.
    erewrite bind_ok by reflexivity.
    eexists _, _. split; reflexivity.
  - erewrite bind_ok by reflexivity.
    erewrite bind_ok by reflexivity.
    eexists _, _. split; reflexivity.
Qed.

(** C6. With a supported task, [__init__] returns for a model of any
    class that [build_model_from_file] loads (and a vocoder that loads
    when a checkpoint is given); the object holds the model that was
    loaded, and the decoding configuration it stores has exactly the
    documented keys of the class of that model: three for [VITS], eight
    for [singing_tacotron], and [use_teacher_forcing] alone for any
    other class.  Under [use_teacher_forcing] it holds the argument of
    that name. *)
Theorem decode_conf_has_documented_keys env a s m :
  arg_svs_task a = "svs" ∨ arg_svs_task a = "gan_svs" →
  build_model_from_file env (arg_svs_task a) = Ok m →
  (is_Some (arg_vocoder_checkpoint a) →
   is_ok (build_vocoder_from_file env) = true) →
  ∃ self s' d,
    SingingGenerate.__init__ env a s = (Ok self, s')
    ∧ SingingGenerate.model self = m
    ∧ heap s' !! SingingGenerate.decode_conf self = Some d
    ∧ dom d = documented_decode_keys (svs_type m)
    ∧ d !! "use_teacher_forcing" = Some (PBool (arg_use_teacher_forcing a)).
Proof.
  intros Ht Hm Hv.
  destruct (init_returns_loaded env a s m Ht Hm Hv) as (self & s' & H & <-).
  exists self, s',
    (SingingGenerate.setup_decode_conf (svs_type (SingingGenerate.model self)) a).
  split; [exact H|]. split; [done|].
  split; [by eapply init_decode_conf|].
  split; [apply setup_decode_conf_keys|].
  unfold SingingGenerate.setup_decode_conf.
  destruct (svs_type (SingingGenerate.model self)); simpl;
    by rewrite ?lookup_insert_ne by done; rewrite lookup_insert_eq.
Qed.

(** Construction does not depend on the class of the model: with a
    supported task, and a model file that loads, [__init__] returns. *)
Lemma init_returns env a s m :
  arg_svs_task a = "svs" ∨ arg_svs_task a = "gan_svs" →
  build_model_from_file env (arg_svs_task a) = Ok m →
  arg_vocoder_checkpoint a = None →
  ∃ self s', SingingGenerate.__init__ env a s = (Ok self, s')
             ∧ SingingGenerate.model self = m.
Proof.
  intros Ht Hm Hv. apply init_returns_loaded; [done | done |].
  rewrite Hv. by intros [? ?].
Qed.

Lemma decode_conf_has_documented_keys_witness :
  let run c :=
    SingingGenerate.__init__ (Stub.env (Stub.acoustic c None ∅) [])
      (init_args_of (Stub.args 1 0) "svs") Stub.empty_store in
  let built c (keys : gset string) :=
    ∃ self s' d,
      run c = (Ok self, s')
      ∧ SingingGenerate.model self = Stub.acoustic c None ∅
      ∧ heap s' !! SingingGenerate.decode_conf self = Some d
      ∧ dom d = keys
      ∧ d !! "use_teacher_forcing" = Some (PBool false) in
  built VITS {[ "use_teacher_forcing"; "noise_scale"; "noise_scale_dur" ]}
  ∧ built singing_tacotron
      {[ "use_teacher_forcing"; "threshold"; "maxlenratio"; "minlenratio";
         "use_att_constraint"; "use_dynamic_filter"; "forward_window";
         "backward_window" ]}
  ∧ built other_svs {[ "use_teacher_forcing" ]}.
Proof.
  intros run built.
  split; [|split];
    (apply (decode_conf_has_documented_keys
              (Stub.env (Stub.acoustic _ None ∅) [])
              (init_args_of (Stub.args 1 0) "svs") Stub.empty_store);
     [by left | reflexivity | by intros [? ?]]).
Defined.

(** ** What the first phase of a call does to the state *)

Lemma run_model_no_vocoder self a :
  keeps (trace_grows not_vocoder_call) (SingingGenerate.run_model self a).
Proof.
  unfold SingingGenerate.run_model, SingingGenerate.check_inputs,
    SingingGenerate.prepare_batch, SingingGenerate.call_config,
    SingingGenerate.call_model_inference, dict_copy.
  repeat keeps_step; unfold not_vocoder_call; simpl; tauto.
Qed.

Lemma run_model_same_dirs self a :
  keeps same_dirs (SingingGenerate.run_model self a).
Proof.
  unfold SingingGenerate.run_model, SingingGenerate.check_inputs,
    SingingGenerate.prepare_batch, SingingGenerate.call_config,
    SingingGenerate.call_model_inference, dict_copy.
  repeat keeps_step.
Qed.

Lemma vocoder_calls_app evs1 evs2 :
  vocoder_calls (evs1 ++ evs2) = vocoder_calls evs1 ++ vocoder_calls evs2.
Proof. unfold vocoder_calls. apply omap_app. Qed.

Lemma vocoder_calls_none evs :
  Forall not_vocoder_call evs → vocoder_calls evs = [].
Proof.
  induction 1 as [|e evs He _ IH]; [done|].
  destruct e; try exact IH. by destruct He.
Qed.

Lemma run_model_vocoder_calls self a s r s1 :
  SingingGenerate.run_model self a s = (r, s1) →
  vocoder_calls (trace s1) = vocoder_calls (trace s).
Proof.
  intros H. apply run_model_no_vocoder in H as (evs & -> & Hevs).
  rewrite vocoder_calls_app, (vocoder_calls_none evs Hevs).
  apply app_nil_r.
Qed.

(** ** Attention weights: duration and focus rate, and no vocoder *)

Lemma dict_get_insert_eq (d : OutputDict) k v : dict_get (<[k := v]> d) k = v.
Proof. unfold dict_get. by rewrite lookup_insert_eq. Qed.

Lemma dict_get_insert_ne (d : OutputDict) k k' v :
  k ≠ k' → dict_get (<[k := v]> d) k' = dict_get d k'.
Proof. intros. unfold dict_get. by rewrite lookup_insert_ne. Qed.

(** The claim the code refutes: with a vocoder configured and attention
    weights (and no waveform) in the output of the model, the vocoder is
    not called once but not at all. *)
Lemma vocoder_once_with_attention_counterexample :
  let self := Stub.orchestrator (Stub.acoustic other_svs None Stub.out_att)
                (Some Stub.voc) 1 "frame" in
  let run := SingingGenerate.__call__ self (Stub.call None ∅) Stub.store in
  SingingGenerate.vocoder self = Some Stub.voc
  ∧ dict_get Stub.out_att "att_w" = Some Stub.att_w
  ∧ Stub.out_att !! "wav" = None
  ∧ is_ok run.1 = true
  ∧ length (vocoder_calls (trace run.2)) ≠ 1.
Proof. vm_compute. repeat split; congruence. Qed.

(** C1, as the code has it. When the output of the acoustic model
    contains attention weights, the call returns that output with
    [duration] and [focus_rate] set to what the duration calculator
    gives for those weights; the calculator is the only collaborator
    called after the model, and the vocoder, configured or not, is not
    invoked. *)
Theorem attention_gives_duration_and_no_vocoder
    self a s out_m s1 att_w duration focus_rate :
  SingingGenerate.run_model self a s = (Ok out_m, s1) →
  dict_get out_m "att_w" = Some att_w →
  SingingGenerate.duration_calculator self att_w = Ok (duration, focus_rate) →
  ∃ out s2,
    SingingGenerate.__call__ self a s = (Ok out, s2)
    ∧ dict_get out "duration" = Some duration
    ∧ dict_get out "focus_rate" = Some focus_rate
    ∧ trace s2 = trace s1 ++ [CallDurationCalculator att_w]
    ∧ vocoder_calls (trace s2) = vocoder_calls (trace s).
Proof.
  intros Hm Hatt Hdur.
  unfold SingingGenerate.__call__. erewrite bind_ok by exact Hm.
  unfold SingingGenerate.postprocess. rewrite Hatt.
  unfold SingingGenerate.call_duration_calculator.
  erewrite bind_ok; cycle 1.
  { erewrite bind_ok by reflexivity. unfold lift. rewrite Hdur. reflexivity. }
  eexists _, _. split; [reflexivity|].
  split; [by rewrite dict_get_insert_ne, dict_get_insert_eq|].
  split; [by rewrite dict_get_insert_eq|].
  split; [reflexivity|]. simpl.
  rewrite vocoder_calls_app. simpl. rewrite app_nil_r.
  by eapply run_model_vocoder_calls.
Qed.

Lemma attention_gives_duration_and_no_vocoder_witness :
  let self := Stub.orchestrator (Stub.acoustic other_svs None Stub.out_att)
                (Some Stub.voc) 1 "frame" in
  ∃ out s2,
    SingingGenerate.__call__ self (Stub.call None ∅) Stub.store = (Ok out, s2)
    ∧ dict_get out "duration" = Some Stub.duration
    ∧ dict_get out "focus_rate" = Some Stub.focus_rate
    ∧ trace s2
      = [CallModelInference {[ "text" := PTensor Stub.text ]} Stub.stored_conf]
        ++ [CallDurationCalculator Stub.att_w]
    ∧ vocoder_calls (trace s2) = vocoder_calls (trace Stub.store).
Proof.
  intros self.
  apply (attention_gives_duration_and_no_vocoder self (Stub.call None ∅)
           Stub.store Stub.out_att
           (mkState (heap Stub.store)
              [CallModelInference {[ "text" := PTensor Stub.text ]}
                 Stub.stored_conf] ∅)
           Stub.att_w Stub.duration Stub.focus_rate);
    reflexivity.
Defined.

(** ** No attention weights: the vocoder step *)

Lemma lift_inv {A} (x : result A) s r s' : lift x s = (r, s') → r = x ∧ s' = s.
Proof. by intros [= <- <-]. Qed.

Lemma call_vocoder_inv voc x pitch s r s' :
  SingingGenerate.call_vocoder voc x pitch s = (r, s') →
  r = voc x pitch
  ∧ s' = mkState (heap s) (trace s ++ [CallVocoder x pitch]) (dirs s).
Proof.
  unfold SingingGenerate.call_vocoder, mbind, M_bind, log, lift.
  by intros [= <- <-].
Qed.

(** When the vocoder step returns, the vocoder has been called exactly
    once and its result is stored under [wav]. *)
Lemma apply_vocoder_ok self voc kwargs output s out s' :
  SingingGenerate.apply_vocoder self voc kwargs output s = (Ok out, s') →
  ∃ x pitch wav,
    s' = mkState (heap s) (trace s ++ [CallVocoder x pitch]) (dirs s)
    ∧ voc x pitch = Ok wav
    ∧ out = <["wav" := Some wav]> output.
Proof.
  unfold SingingGenerate.apply_vocoder. intros H.
  apply bind_inv in H as [(x0 & s1 & H0 & H)|(? & _ & ?)]; [|done].
  apply lift_inv in H0 as [_ ->].
  apply bind_inv in H as [(x & s1 & H0 & H)|(? & _ & ?)]; [|done].
  apply lift_inv in H0 as [_ ->].
  apply bind_inv in H as [(wav & s1 & H0 & H)|(? & _ & ?)]; [|done].
  unfold mret, M_ret in H. injection H as <- <-.
  assert (∃ pitch, SingingGenerate.call_vocoder voc x pitch s = (Ok wav, s1))
    as [pitch Hc].
  { destruct (output !! "pitch") as [[pitch|]|]; eauto.
    case_bool_decide; [|done].
    apply bind_inv in H0 as [(? & ? & H0 & H1)|(? & _ & ?)]; [|done].
    apply lift_inv in H0 as [_ ->]. eauto. }
  apply call_vocoder_inv in Hc as [Hw ->].
  exists x, pitch, wav. by rewrite <- Hw.
Qed.

(** The claim the code refutes: a waveform in the output of the model
    does not keep the vocoder from running (first run: it is called and
    its result replaces the waveform), nor [duration] and [focus_rate]
    from being set (second run). *)
Lemma waveform_skips_vocoder_counterexample :
  let with_feat := Stub.orchestrator
                     (Stub.acoustic other_svs None Stub.out_feat_wav)
                     (Some Stub.voc) 1 "frame" in
  let with_att := Stub.orchestrator
                    (Stub.acoustic other_svs None Stub.out_wav_att)
                    (Some Stub.voc) 1 "frame" in
  let run1 := SingingGenerate.__call__ with_feat (Stub.call None ∅) Stub.store in
  let run2 := SingingGenerate.__call__ with_att (Stub.call None ∅) Stub.store in
  dict_get Stub.out_feat_wav "wav" = Some Stub.wav
  ∧ vocoder_calls (trace run1.2) = [(FeatTensor Stub.feat, None)]
  ∧ (∃ out, run1.1 = Ok out ∧ dict_get out "wav" = Some Stub.wav')
  ∧ dict_get Stub.out_wav_att "wav" = Some Stub.wav
  ∧ (∃ out, run2.1 = Ok out ∧ dict_get out "duration" = Some Stub.duration
            ∧ dict_get out "focus_rate" = Some Stub.focus_rate).
Proof.
  cbv zeta. split; [reflexivity|]. split; [reflexivity|].
  split; [eexists; split; reflexivity|].
  split; [reflexivity|].
  eexists; split; [reflexivity|]. split; reflexivity.
Qed.

(** C2, as the code has it. When the output of the acoustic model has
    no attention weights, whether or not it has a waveform: [duration]
    and [focus_rate] are [None] in what the call returns; without a
    vocoder the output of the model is returned with these two entries
    only, and no collaborator is called; with a vocoder, a call that
    returns has invoked it exactly once, and its result is the [wav]
    entry. *)
Theorem no_attention_runs_configured_vocoder self a s out_m s1 :
  SingingGenerate.run_model self a s = (Ok out_m, s1) →
  dict_get out_m "att_w" = None →
  let output : OutputDict :=
    <["focus_rate" := None]> (<["duration" := None]> out_m) in
  match SingingGenerate.vocoder self with
  | None => SingingGenerate.__call__ self a s = (Ok output, s1)
  | Some voc =>
      ∀ out s2,
        SingingGenerate.__call__ self a s = (Ok out, s2) →
        dict_get out "duration" = None
        ∧ dict_get out "focus_rate" = None
        ∧ ∃ x pitch wav,
            trace s2 = trace s1 ++ [CallVocoder x pitch]
            ∧ voc x pitch = Ok wav
            ∧ out = <["wav" := Some wav]> output
  end.
Proof.
  intros Hm Hatt output.
  unfold SingingGenerate.__call__. erewrite bind_ok by exact Hm.
  unfold SingingGenerate.postprocess. rewrite Hatt. fold output.
  destruct (SingingGenerate.vocoder self) as [voc|]; [|done].
  intros out s2 H.
  apply apply_vocoder_ok in H as (x & pitch & wav & -> & Hv & ->).
  subst output.
  split.
  { rewrite !dict_get_insert_ne by done. apply dict_get_insert_eq. }
  split.
  { rewrite dict_get_insert_ne by done. apply dict_get_insert_eq. }
  by exists x, pitch, wav.
Qed.

Lemma no_attention_runs_configured_vocoder_witness :
  let self := Stub.orchestrator
                (Stub.acoustic other_svs None Stub.out_feat_wav)
                (Some Stub.voc) 1 "frame" in
  let output : OutputDict :=
    <["focus_rate" := None]> (<["duration" := None]> Stub.out_feat_wav) in
  ∃ out s2,
    SingingGenerate.__call__ self (Stub.call None ∅) Stub.store = (Ok out, s2)
    ∧ dict_get out "duration" = None
    ∧ dict_get out "focus_rate" = None
    ∧ ∃ x pitch wav,
        trace s2
        = [CallModelInference {[ "text" := PTensor Stub.text ]} Stub.stored_conf]
          ++ [CallVocoder x pitch]
        ∧ Stub.voc x pitch = Ok wav
        ∧ out = <["wav" := Some wav]> output.
Proof.
  intros self output. eexists _, _. split; [vm_compute; reflexivity|].
  apply (no_attention_runs_configured_vocoder self (Stub.call None ∅)
           Stub.store Stub.out_feat_wav
           (mkState (heap Stub.store)
              [CallModelInference {[ "text" := PTensor Stub.text ]}
                 Stub.stored_conf] ∅) eq_refl eq_refl).
  reflexivity.
Defined.

(** ** A [mix_type] that is neither "frame" nor "sequence" *)

Lemma select_input_feat_insert self (output : OutputDict) k v :
  k ≠ "feat_gen" → k ≠ "feat_gen_denorm" →
  SingingGenerate.select_input_feat self (<[k := v]> output)
  = SingingGenerate.select_input_feat self output.
Proof.
  intros H1 H2. unfold SingingGenerate.select_input_feat, getitem.
  rewrite dict_get_insert_ne by done. by rewrite !lookup_insert_ne by done.
Qed.

Lemma mix_layers_unknown layers mix x :
  mix ≠ "frame" → mix ≠ "sequence" →
  SingingGenerate.mix_layers layers mix x = Ok x.
Proof.
  intros H1 H2. unfold SingingGenerate.mix_layers.
  by rewrite !bool_decide_eq_false_2 by done.
Qed.

(** The claim the code refutes: with [use_singomd] the flat feature is
    indexed as if it had been reshaped to two dimensions, and the call
    raises before the vocoder is reached. *)
Lemma unknown_mix_type_no_error_counterexample :
  let self := Stub.orchestrator (Stub.acoustic other_svs None Stub.out_feat)
                (Some Stub.voc) 2 "bogus" in
  let run := SingingGenerate.__call__ self
               (Stub.call None {[ "use_singomd" := PBool true ]}) Stub.store in
  (1 < SingingGenerate.discrete_token_layers self)%Z
  ∧ SingingGenerate.mix_type self ≠ "frame"
  ∧ SingingGenerate.mix_type self ≠ "sequence"
  ∧ run.1 = Raise (IndexError "too many indices for tensor")
  ∧ vocoder_calls (trace run.2) = [].
Proof. cbv zeta. repeat split; try reflexivity; discriminate. Qed.

(** C10, as the code has it. With more than one token layer and a
    [mix_type] that is neither "frame" nor "sequence", and [use_singomd]
    not set, a call that reaches the vocoder step with a feature tensor
    raises nothing of its own: the vocoder is called once with that
    tensor exactly as the model returned it, and the call returns or
    raises what the vocoder does. *)
Theorem unknown_mix_type_feeds_unreshaped_feature
    self a s out_m s1 voc x :
  SingingGenerate.run_model self a s = (Ok out_m, s1) →
  dict_get out_m "att_w" = None →
  SingingGenerate.vocoder self = Some voc →
  (1 < SingingGenerate.discrete_token_layers self)%Z →
  SingingGenerate.mix_type self ≠ "frame" →
  SingingGenerate.mix_type self ≠ "sequence" →
  SingingGenerate.a_kwargs a !! "use_singomd" ≠ Some (PBool true) →
  SingingGenerate.select_input_feat self out_m = Ok (FeatTensor x) →
  (∀ pitch, out_m !! "pitch" = Some (Some pitch) → ndim pitch = 1) →
  let pitch := default None (out_m !! "pitch") in
  let output : OutputDict :=
    <["focus_rate" := None]> (<["duration" := None]> out_m) in
  SingingGenerate.__call__ self a s
  = (wav ← voc (FeatTensor x) pitch; Ok (<["wav" := Some wav]> output),
     mkState (heap s1) (trace s1 ++ [CallVocoder (FeatTensor x) pitch])
       (dirs s1)).
Proof.
  intros Hm Hatt Hvoc Hl Hf Hs Hk Hsel Hp pitch output.
  unfold SingingGenerate.__call__. erewrite bind_ok by exact Hm.
  unfold SingingGenerate.postprocess. rewrite Hatt, Hvoc. fold output.
  unfold SingingGenerate.apply_vocoder.
  erewrite bind_ok; cycle 1.
  { unfold lift, output. rewrite !select_input_feat_insert by done.
    rewrite Hsel. reflexivity. }
  rewrite (bind_ok _ _ _ (FeatTensor x) s1); cycle 1.
  { unfold lift. apply Z.ltb_lt in Hl. rewrite Hl.
    rewrite mix_layers_unknown by done. simpl.
    destruct (SingingGenerate.a_kwargs a !! "use_singomd") as [[| [] | | | | | |]|];
      done. }
  assert (output !! "pitch" = out_m !! "pitch") as ->.
  { unfold output. by rewrite !lookup_insert_ne by done. }
  assert (∀ A (m : M Tensor) (f : Tensor → A) r s',
            m s1 = (r, s') →
            (wav ← m; mret (f wav)) s1 = (wav ← r; Ok (f wav), s')) as Hbind.
  { intros A m f r s' E. unfold mbind at 1, M_bind. rewrite E.
    by destruct r. }
  apply Hbind. subst pitch.
  destruct (out_m !! "pitch") as [[p|]|] eqn:E; simpl; try reflexivity.
  rewrite bool_decide_eq_true_2 by eauto.
  erewrite bind_ok by reflexivity. reflexivity.
Qed.

Lemma unknown_mix_type_feeds_unreshaped_feature_witness :
  let self := Stub.orchestrator (Stub.acoustic other_svs None Stub.out_feat)
                (Some Stub.voc) 2 "bogus" in
  SingingGenerate.__call__ self (Stub.call None ∅) Stub.store
  = (Ok (<["wav" := Some Stub.wav']>
           (<["focus_rate" := None]> (<["duration" := None]> Stub.out_feat))),
     mkState (heap Stub.store)
       ([CallModelInference {[ "text" := PTensor Stub.text ]} Stub.stored_conf]
        ++ [CallVocoder (FeatTensor Stub.feat) None]) ∅).
Proof.
  intros self.
  apply (unknown_mix_type_feeds_unreshaped_feature self (Stub.call None ∅)
           Stub.store Stub.out_feat
           (mkState (heap Stub.store)
              [CallModelInference {[ "text" := PTensor Stub.text ]}
                 Stub.stored_conf] ∅)
           Stub.voc Stub.feat);
    try reflexivity; discriminate.
Defined.

(** ** The stored configuration and the per-call override *)

Lemma model_calls_app evs1 evs2 :
  model_calls (evs1 ++ evs2) = model_calls evs1 ++ model_calls evs2.
Proof. unfold model_calls. apply omap_app. Qed.

Lemma model_calls_none evs :
  Forall not_model_call evs → model_calls evs = [].
Proof.
  induction 1 as [|e evs He _ IH]; [done|].
  destruct e; try exact IH. by destruct He.
Qed.

Ltac unfold_call :=
  unfold SingingGenerate.postprocess, SingingGenerate.apply_vocoder,
    SingingGenerate.call_vocoder, SingingGenerate.call_duration_calculator,
    SingingGenerate.prepare_batch.

Lemma prepare_batch_same_heap self a :
  keeps same_heap (SingingGenerate.prepare_batch self a).
Proof. unfold_call. repeat keeps_step. Qed.

Lemma prepare_batch_no_model_call self a :
  keeps (trace_grows not_model_call) (SingingGenerate.prepare_batch self a).
Proof. unfold_call. repeat keeps_step; unfold not_model_call; simpl; tauto. Qed.

Lemma postprocess_same_heap self kwargs output :
  keeps same_heap (SingingGenerate.postprocess self kwargs output).
Proof. unfold_call. repeat keeps_step. Qed.

Lemma postprocess_same_dirs self kwargs output :
  keeps same_dirs (SingingGenerate.postprocess self kwargs output).
Proof. unfold_call. repeat keeps_step. Qed.

Lemma postprocess_no_model_call self kwargs output :
  keeps (trace_grows not_model_call)
    (SingingGenerate.postprocess self kwargs output).
Proof. unfold_call. repeat keeps_step; unfold not_model_call; simpl; tauto. Qed.

(** With an override, the configuration of the call is a new object:
    the copy of the stored dictionary, updated with the override. *)
Lemma call_config_override self a s override stored :
  SingingGenerate.a_decode_conf a = Some override →
  heap s !! SingingGenerate.decode_conf self = Some stored →
  let l := fresh (dom (heap s)) in
  (SingingGenerate.call_config self a ≫= deref) s
  = (Ok (override ∪ stored),
     mkState (<[l := override ∪ stored]> (heap s)) (trace s) (dirs s)).
Proof.
  intros Ha Hs l. unfold SingingGenerate.call_config. rewrite Ha.
  unfold dict_copy, dict_update, deref, alloc, mbind, M_bind, mret, M_ret.
  simpl. fold l.
  rewrite (lookup_total_correct _ _ _ Hs), lookup_total_insert_eq.
  by rewrite lookup_total_insert_eq, insert_insert_eq.
Qed.

Lemma call_config_stored self a s :
  SingingGenerate.a_decode_conf a = None →
  (SingingGenerate.call_config self a ≫= deref) s
  = (Ok (heap s !!! SingingGenerate.decode_conf self), s).
Proof. intros Ha. unfold SingingGenerate.call_config. by rewrite Ha. Qed.

Lemma fresh_not_allocated (h : gmap nat (gmap string pyval)) :
  h !! fresh (dom h) = None.
Proof. apply not_elem_of_dom, is_fresh. Qed.

Lemma call_model_inference_inv self batch cfg s r s' :
  SingingGenerate.call_model_inference self batch cfg s = (r, s') →
  heap s' = heap s ∧ dirs s' = dirs s
  ∧ ((trace s' = trace s ++ [CallModelInference batch cfg])
     ∨ (trace s' = trace s ∧ is_ok r = false)).
Proof.
  unfold SingingGenerate.call_model_inference.
  case_bool_decide.
  - unfold mbind, M_bind, log, lift. intros [= <- <-]. auto.
  - intros [= <- <-]. auto.
Qed.

Lemma bind_assoc {A B C} (m : M A) (f : A → M B) (g : B → M C) s :
  (m ≫= λ x, f x ≫= g) s = ((m ≫= f) ≫= g) s.
Proof. unfold mbind, M_bind. by destruct (m s) as [[?|?] ?]. Qed.

(** The first phase of a call: either it stops before the configuration
    is read, leaving the heap as it was, or the model is called at most
    once, with the configuration [cfg]: the stored dictionary, or with
    an override the merged copy, which is then the only change to the
    heap, at a reference that was free. *)
Lemma run_model_effect self a s stored r s1 :
  heap s !! SingingGenerate.decode_conf self = Some stored →
  SingingGenerate.run_model self a s = (r, s1) →
  ∃ evs, trace s1 = trace s ++ evs ∧
    ((heap s1 = heap s ∧ is_ok r = false ∧ model_calls evs = [])
     ∨ ∃ batch cfg,
         match SingingGenerate.a_decode_conf a with
         | Some override =>
             cfg = override ∪ stored
             ∧ heap s1 = <[fresh (dom (heap s)) := cfg]> (heap s)
         | None => cfg = stored ∧ heap s1 = heap s
         end
         ∧ (model_calls evs = [(batch, cfg)]
            ∨ (model_calls evs = [] ∧ is_ok r = false))).
Proof.
  intros Hs H. unfold SingingGenerate.run_model in H.
  apply bind_inv in H as [(? & s0 & H0 & H)|(e & H0 & ->)]; cycle 1.
  { apply check_inputs_state in H0 as ->. exists []. rewrite app_nil_r. auto. }
  apply check_inputs_state in H0 as ->.
  apply bind_inv in H as [(batch & s0 & H0 & H)|(e & H0 & ->)]; cycle 1.
  { pose proof (prepare_batch_same_heap _ _ _ _ _ H0) as Hh.
    apply prepare_batch_no_model_call in H0 as (evs & Ht & Hevs).
    exists evs. split; [done|]. left. by rewrite (model_calls_none _ Hevs). }
  pose proof (prepare_batch_same_heap _ _ _ _ _ H0) as Hh. red in Hh.
  apply prepare_batch_no_model_call in H0 as (evs & Ht & Hevs).
  rewrite bind_assoc in H.
  destruct (SingingGenerate.a_decode_conf a) as [override|] eqn:Ha.
  - erewrite bind_ok in H; cycle 1.
    { apply (call_config_override self a s0 override stored Ha). by rewrite Hh. }
    apply call_model_inference_inv in H as (Hh1 & _ & Ht1). simpl in *.
    rewrite Hh in Hh1.
    destruct Ht1 as [Ht1 | [Ht1 Hr]].
    + exists (evs ++ [CallModelInference batch (override ∪ stored)]).
      rewrite Ht1, Ht, <- app_assoc. split; [done|]. right.
      exists batch, (override ∪ stored). split; [done|]. left.
      by rewrite model_calls_app, (model_calls_none _ Hevs).
    + exists evs. rewrite Ht1. split; [done|]. right.
      exists batch, (override ∪ stored). split; [done|]. right.
      by rewrite (model_calls_none _ Hevs).
  - erewrite bind_ok in H; cycle 1.
    { by apply call_config_stored. }
    rewrite Hh, (lookup_total_correct _ _ _ Hs) in H.
    apply call_model_inference_inv in H as (Hh1 & _ & Ht1).
    rewrite Hh in Hh1.
    destruct Ht1 as [Ht1 | [Ht1 Hr]].
    + exists (evs ++ [CallModelInference batch stored]).
      rewrite Ht1, Ht, <- app_assoc. split; [done|]. right.
      exists batch, stored. split; [done|]. left.
      by rewrite model_calls_app, (model_calls_none _ Hevs).
    + exists evs. rewrite Ht1. split; [done|]. right.
      exists batch, stored. split; [done|]. right.
      by rewrite (model_calls_none _ Hevs).
Qed.

(** The configuration of a call: the stored dictionary, or with an
    override the merged copy in a new object. *)
Lemma call_config_total self a s :
  let stored := heap s !!! SingingGenerate.decode_conf self in
  let cfg := match SingingGenerate.a_decode_conf a with
             | Some override => override ∪ stored
             | None => stored
             end in
  let h := match SingingGenerate.a_decode_conf a with
           | Some _ => <[fresh (dom (heap s)) := cfg]> (heap s)
           | None => heap s
           end in
  (SingingGenerate.call_config self a ≫= deref) s
  = (Ok cfg, mkState h (trace s) (dirs s)).
Proof.
  intros stored cfg h. subst stored cfg h.
  unfold SingingGenerate.call_config.
  destruct (SingingGenerate.a_decode_conf a) as [override|].
  - unfold dict_copy, dict_update, deref, alloc, mbind, M_bind, mret, M_ret.
    simpl. rewrite !lookup_total_insert_eq. by rewrite insert_insert_eq.
  - by destruct s.
Qed.

(** A call in which the model was invoked: its result is what the
    model returned for the batch and the configuration together, put
    through the second phase; or what the model raised. *)
Lemma call_after_model self a s r s' evs batch cfg :
  SingingGenerate.__call__ self a s = (r, s') →
  trace s' = trace s ++ evs →
  model_calls evs = [(batch, cfg)] →
  let stored := heap s !!! SingingGenerate.decode_conf self in
  let h := match SingingGenerate.a_decode_conf a with
           | Some _ => <[fresh (dom (heap s)) := cfg]> (heap s)
           | None => heap s
           end in
  ∃ s0,
    SingingGenerate.prepare_batch self a s = (Ok batch, s0)
    ∧ cfg = match SingingGenerate.a_decode_conf a with
            | Some override => override ∪ stored
            | None => stored
            end
    ∧ let s1 := mkState h (trace s0 ++ [CallModelInference batch cfg])
                  (dirs s0) in
      (r, s') = match model_inference (SingingGenerate.model self)
                        (batch ∪ cfg) with
                | Ok out_m =>
                    SingingGenerate.postprocess self
                      (SingingGenerate.a_kwargs a) out_m s1
                | Raise e => (Raise e, s1)
                end.
Proof.
  intros H Ht Hcalls stored h.
  unfold SingingGenerate.__call__, SingingGenerate.run_model in H.
  rewrite <- bind_assoc in H.
  apply bind_inv in H as [([] & s0 & H0 & H)|(e & H0 & ->)]; cycle 1.
  { apply check_inputs_state in H0 as ->.
    rewrite <- (app_nil_r (trace s)) in Ht at 1.
    apply app_inv_head in Ht as <-. done. }
  apply check_inputs_state in H0 as ->.
  rewrite <- bind_assoc in H.
  apply bind_inv in H as [(batch0 & s0 & H0 & H)|(e & H0 & ->)]; cycle 1.
  { apply prepare_batch_no_model_call in H0 as (evs0 & Ht0 & Hevs0).
    rewrite Ht0 in Ht. apply app_inv_head in Ht as <-.
    by rewrite (model_calls_none _ Hevs0) in Hcalls. }
  pose proof (prepare_batch_same_heap _ _ _ _ _ H0) as Hh. red in Hh.
  pose proof (prepare_batch_no_model_call _ _ _ _ _ H0) as (evs0 & Ht0 & Hevs0).
  rewrite <- bind_assoc in H.
  pose proof (call_config_total self a s0) as Hc. cbv zeta in Hc.
  apply bind_inv in H as [(l & s2 & H1 & H)|(e & H1 & ->)]; cycle 1.
  { by erewrite bind_raise in Hc by exact H1. }
  erewrite bind_ok in Hc by exact H1.
  rewrite <- bind_assoc in H.
  erewrite bind_ok in H by exact Hc.
  clear l s2 H1 Hc. rewrite Hh in H.
  set (cfg0 := match SingingGenerate.a_decode_conf a with
               | Some override => override ∪ stored
               | None => stored
               end) in *.
  unfold SingingGenerate.call_model_inference in H.
  case_bool_decide as Hdis; cycle 1.
  { injection H as <- <-. cbn [trace] in Ht. rewrite Ht0 in Ht.
    apply app_inv_head in Ht as <-.
    by rewrite (model_calls_none _ Hevs0) in Hcalls. }
  rewrite <- bind_assoc in H.
  erewrite bind_ok in H by reflexivity. cbn [heap trace dirs] in H.
  assert (batch0 = batch ∧ cfg0 = cfg) as [-> Hcfg].
  { apply bind_inv in H as [(out_m & s1 & H1 & H)|(e & H1 & ->)].
    - apply lift_inv in H1 as [_ ->].
      apply postprocess_no_model_call in H as (evs2 & Ht2 & Hevs2).
      cbn [trace] in Ht2. rewrite Ht2, Ht0, <- !app_assoc in Ht.
      apply app_inv_head in Ht as <-.
      rewrite !model_calls_app, (model_calls_none _ Hevs0),
        (model_calls_none _ Hevs2) in Hcalls.
      injection Hcalls as E1 E2. by split.
    - apply lift_inv in H1 as [_ ->]. cbn [trace] in Ht.
      rewrite Ht0, <- !app_assoc in Ht.
      apply app_inv_head in Ht as <-.
      rewrite !model_calls_app, (model_calls_none _ Hevs0) in Hcalls.
      injection Hcalls as E1 E2. by split. }
  exists s0. split; [done|]. split; [by rewrite <- Hcfg|].
  subst h. cbv zeta. rewrite <- Hcfg. subst cfg0. rewrite <- H.
  unfold mbind, M_bind, lift.
  by destruct (model_inference _ _).
Qed.

(** C9. The dictionary stored in [self.decode_conf] is the same after
    every call as before it, whatever the call returns or raises.  With
    an override, the configuration the model is called with is the
    override merged on top of the stored dictionary (a key of the
    override wins, the other keys of the stored dictionary are kept);
    the model is called with it at most once, and exactly once when the
    call returns; it lives in a new dictionary object, the only change a
    call makes to the heap.  When the model is called, what the call
    returns or raises is what the second phase makes of the output of
    the model for the batch and that configuration together, or what
    the model raised. *)
Theorem override_merged_on_fresh_copy self a s stored r s' :
  heap s !! SingingGenerate.decode_conf self = Some stored →
  SingingGenerate.__call__ self a s = (r, s') →
  heap s' !! SingingGenerate.decode_conf self = Some stored
  ∧ ∃ evs, trace s' = trace s ++ evs
    ∧ ∀ override, SingingGenerate.a_decode_conf a = Some override →
        let cfg := override ∪ stored in
        (model_calls evs = [] ∨ ∃ batch, model_calls evs = [(batch, cfg)])
        ∧ (is_ok r = true → ∃ batch, model_calls evs = [(batch, cfg)])
        ∧ (heap s' = heap s
           ∨ ∃ l, heap s !! l = None ∧ heap s' = <[l := cfg]> (heap s))
        ∧ (∀ k, cfg !! k = match override !! k with
                           | Some v => Some v
                           | None => stored !! k
                           end)
        ∧ ∀ batch, model_calls evs = [(batch, cfg)] →
            ∃ s0 l,
              SingingGenerate.prepare_batch self a s = (Ok batch, s0)
              ∧ heap s !! l = None
              ∧ let s1 := mkState (<[l := cfg]> (heap s))
                            (trace s0 ++ [CallModelInference batch cfg])
                            (dirs s0) in
                (r, s') = match model_inference (SingingGenerate.model self)
                                  (batch ∪ cfg) with
                          | Ok out_m =>
                              SingingGenerate.postprocess self
                                (SingingGenerate.a_kwargs a) out_m s1
                          | Raise e => (Raise e, s1)
                          end.
Proof.
  intros Hs H. pose proof H as Hcall. unfold SingingGenerate.__call__ in H.
  assert (∃ r1 s1 evs2,
            SingingGenerate.run_model self a s = (r1, s1)
            ∧ heap s' = heap s1 ∧ trace s' = trace s1 ++ evs2
            ∧ model_calls evs2 = [] ∧ (is_ok r = true → is_ok r1 = true))
    as (r1 & s1 & evs2 & Hrun & Hh2 & Ht2 & Hm2 & Hok).
  { apply bind_inv in H as [(out & s1 & H0 & H)|(e & H0 & ->)].
    - pose proof (postprocess_same_heap _ _ _ _ _ _ H) as Hh.
      apply postprocess_no_model_call in H as (evs2 & Ht & Hevs).
      exists (Ok out), s1, evs2. by rewrite (model_calls_none _ Hevs).
    - exists (Raise e), s', []. by rewrite app_nil_r. }
  destruct (run_model_effect self a s stored r1 s1 Hs Hrun)
    as (evs1 & Ht1 & Hcases).
  assert (heap s !! fresh (dom (heap s)) = None) as Hfresh
    by apply fresh_not_allocated.
  split.
  { rewrite Hh2. destruct Hcases as [(-> & _) | (batch & cfg & Hc & _)]; [done|].
    destruct (SingingGenerate.a_decode_conf a); destruct Hc as [_ ->]; [|done].
    rewrite lookup_insert_ne; [done|]. intros E. rewrite E in Hfresh. congruence. }
  assert (trace s' = trace s ++ evs1 ++ evs2) as Ht
    by (by rewrite Ht2, Ht1, app_assoc).
  exists (evs1 ++ evs2). split; [exact Ht|].
  intros override Ha cfg.
  split; [|split; [|split; [|split]]].
  - rewrite model_calls_app, Hm2, app_nil_r. rewrite Ha in Hcases.
    destruct Hcases as [(_ & _ & ->) | (batch & ? & [-> _] & [-> | [-> _]])];
      eauto.
  - rewrite model_calls_app, Hm2, app_nil_r. rewrite Ha in Hcases.
    intros Hr. apply Hok in Hr.
    destruct Hcases as [(_ & E & _) | (batch & ? & [-> _] & [-> | [_ E]])];
      eauto; congruence.
  - rewrite Hh2. rewrite Ha in Hcases.
    destruct Hcases as [(-> & _) | (batch & ? & [-> ->] & _)]; eauto.
  - intros k. unfold cfg. rewrite lookup_union.
    destruct (override !! k), (stored !! k); reflexivity.
  - intros batch Hcalls.
    destruct (call_after_model _ _ _ _ _ _ _ _ Hcall Ht Hcalls)
      as (s0 & Hprep & _ & Hres).
    exists s0, (fresh (dom (heap s))).
    split; [exact Hprep|]. split; [exact Hfresh|].
    rewrite Ha in Hres. exact Hres.
Qed.

Lemma override_merged_on_fresh_copy_witness :
  let self := Stub.orchestrator Stub.acoustic_by_conf None 1 "frame" in
  let a := Stub.call (Some Stub.override) ∅ in
  let s := Stub.store_two in
  let stored := Stub.stored_two in
  let run := SingingGenerate.__call__ self a s in
  let r := run.1 in
  let s' := run.2 in
  r = Ok (<["focus_rate" := Some Stub.focus_rate]>
            (<["duration" := Some Stub.duration]> Stub.out_att))
  ∧ heap s' !! SingingGenerate.decode_conf self = Some stored
  ∧ ∃ evs, trace s' = trace s ++ evs
    ∧ ∀ override, SingingGenerate.a_decode_conf a = Some override →
        let cfg := override ∪ stored in
        (model_calls evs = [] ∨ ∃ batch, model_calls evs = [(batch, cfg)])
        ∧ (is_ok r = true → ∃ batch, model_calls evs = [(batch, cfg)])
        ∧ (heap s' = heap s
           ∨ ∃ l, heap s !! l = None ∧ heap s' = <[l := cfg]> (heap s))
        ∧ (∀ k, cfg !! k = match override !! k with
                           | Some v => Some v
                           | None => stored !! k
                           end)
        ∧ ∀ batch, model_calls evs = [(batch, cfg)] →
            ∃ s0 l,
              SingingGenerate.prepare_batch self a s = (Ok batch, s0)
              ∧ heap s !! l = None
              ∧ let s1 := mkState (<[l := cfg]> (heap s))
                            (trace s0 ++ [CallModelInference batch cfg])
                            (dirs s0) in
                (r, s') = match model_inference (SingingGenerate.model self)
                                  (batch ∪ cfg) with
                          | Ok out_m =>
                              SingingGenerate.postprocess self
                                (SingingGenerate.a_kwargs a) out_m s1
                          | Raise e => (Raise e, s1)
                          end.
Proof.
  intros self a s stored run r s'.
  split; [vm_compute; reflexivity|].
  apply (override_merged_on_fresh_copy self a s stored r s');
    [reflexivity | apply surjective_pairing].
Defined.

(** * The batch runner *)

(** C7. With [batch_size > 1] or [ngpu > 1], [inference] raises
    [NotImplementedError] at once: the state is untouched, so no
    channel directory has been created and neither the model nor the
    loader has been built. *)
Theorem batch_or_gpu_above_one_aborts env a s :
  (1 < batch_size a ∨ 1 < ngpu a)%Z →
  ∃ msg, inference env a s = (Raise (NotImplementedError msg), s).
Proof.
  intros H. unfold inference.
  destruct (1 <? batch_size a)%Z eqn:Hb.
  - eexists. by erewrite bind_raise.
  - erewrite bind_ok by reflexivity.
    destruct (1 <? ngpu a)%Z eqn:Hg.
    + eexists. by erewrite bind_raise.
    + apply Z.ltb_ge in Hb, Hg. lia.
Qed.

Lemma batch_or_gpu_above_one_aborts_witness :
  ∃ msg,
    inference (Stub.env (Stub.acoustic other_svs None ∅) []) (Stub.args 2 0)
      Stub.empty_store
    = (Raise (NotImplementedError msg), Stub.empty_store).
Proof.
  apply batch_or_gpu_above_one_aborts. left. reflexivity.
Defined.

(** ** An empty loader *)

Lemma init_same_dirs env a : keeps same_dirs (SingingGenerate.__init__ env a).
Proof. unfold SingingGenerate.__init__. repeat keeps_step. Qed.

Lemma remove_unused_unbound s :
  remove_unused None channel_keys s = (Raise (UnboundLocalError "output_dict"), s).
Proof. reflexivity. Qed.

(** C5. With a loader that yields nothing, a run that gets as far as
    the loop (sizes accepted, the model built) creates the eight
    directories and then raises [UnboundLocalError]: line 643 reads the
    local variable [output_dict], which only the loop body binds.  No
    directory is removed. *)
Theorem empty_loader_raises_UnboundLocalError env a s task self s1 :
  (batch_size a ≤ 1)%Z →
  (ngpu a ≤ 1)%Z →
  svs_task a = Some task →
  SingingGenerate.__init__ env (init_args_of a task)
    (mkState (heap s)
       (trace s ++ [CallBasicConfig] ++ [CallSetAllRandomSeed (seed a)])
       (dirs s))
  = (Ok self, s1) →
  build_streaming_iterator env = Ok [] →
  ∃ s', inference env a s = (Raise (UnboundLocalError "output_dict"), s')
        ∧ dirs s' = all_channels ∪ dirs s.
Proof.
  intros Hb Hg Ht Hinit Hl.
  pose proof (init_same_dirs _ _ _ _ _ Hinit) as Hd. red in Hd. simpl in Hd.
  unfold inference.
  apply Z.ltb_ge in Hb, Hg. rewrite Hb, Hg, Ht.
  do 5 (erewrite bind_ok by reflexivity; cbn [heap trace dirs]).
  erewrite bind_ok; cycle 1.
  { rewrite <- app_assoc. exact Hinit. }
  erewrite bind_ok by reflexivity.
  erewrite bind_ok by (unfold lift; rewrite Hl; reflexivity).
  do 14 (erewrite bind_ok by reflexivity; cbn [heap trace dirs]).
  erewrite bind_ok by reflexivity.
  eexists. split; [apply remove_unused_unbound|].
  cbn [dirs]. rewrite Hd. unfold all_channels. set_solver.
Qed.

Lemma empty_loader_raises_UnboundLocalError_witness :
  ∃ s',
    inference (Stub.env (Stub.acoustic other_svs None Stub.out_feat) [])
      (Stub.args 1 0) Stub.empty_store
    = (Raise (UnboundLocalError "output_dict"), s')
    ∧ dirs s' = all_channels ∪ dirs Stub.empty_store.
Proof.
  eapply (empty_loader_raises_UnboundLocalError
            (Stub.env (Stub.acoustic other_svs None Stub.out_feat) [])
            (Stub.args 1 0) Stub.empty_store "svs");
    [done | done | reflexivity | reflexivity | reflexivity].
Defined.

(** ** Which directories are removed at the end of a run *)

Lemma call_same_dirs self a : keeps same_dirs (SingingGenerate.__call__ self a).
Proof.
  unfold SingingGenerate.__call__. apply keeps_bind; [apply _ | |].
  - apply run_model_same_dirs.
  - intros output. apply postprocess_same_dirs.
Qed.

Lemma process_utterance_same_dirs sg u item :
  keeps same_dirs (process_utterance sg u item).
Proof.
  destruct item as [keys batch]. unfold process_utterance.
  repeat first [apply call_same_dirs | keeps_step].
Qed.


Lemma rmtree_inv d s s' :
  rmtree d s = (Ok (), s') → d ∈ dirs s ∧ dirs s' = dirs s ∖ {[ d ]}.
Proof.
  unfold rmtree. case_bool_decide; [|done]. by intros [= <-].
Qed.

Lemma remove_unused_step output k d rest s s' :
  remove_unused (Some output) ((k, d) :: rest) s = (Ok (), s') →
  ∃ s1, remove_unused (Some output) rest s1 = (Ok (), s')
        ∧ ((dict_get output k = None ∧ d ∈ dirs s
            ∧ dirs s1 = dirs s ∖ {[ d ]})
           ∨ (dict_get output k ≠ None ∧ dirs s1 = dirs s)).
Proof.
  simpl. intros H.
  apply bind_inv in H as [(? & ? & [= <- <-] & H)|(? & _ & ?)]; [|done].
  apply bind_inv in H as [([] & s1 & H0 & H)|(? & _ & ?)]; [|done].
  exists s1. split; [done|].
  case_bool_decide.
  - apply rmtree_inv in H0 as [? ?]. auto.
  - injection H0 as <-. auto.
Qed.

Lemma remove_unused_other output chs s s' d :
  remove_unused (Some output) chs s = (Ok (), s') →
  d ∉ chs.*2 → (d ∈ dirs s' ↔ d ∈ dirs s).
Proof.
  revert s. induction chs as [|[k0 d0] rest IH]; intros s H Hd.
  - by injection H as <-.
  - apply remove_unused_step in H as (s1 & H & Hs1).
    rewrite fmap_cons, not_elem_of_cons in Hd. destruct Hd as [Hne Hd].
    rewrite (IH _ H Hd). simpl in Hne.
    destruct Hs1 as [(_ & _ & ->) | (_ & ->)]; set_solver.
Qed.


Lemma channel_keys_NoDup : NoDup channel_keys.*2.
Proof. apply (bool_decide_unpack _). by vm_compute. Qed.

Lemma channel_keys_all k d : (k, d) ∈ channel_keys → d ∈ all_channels.
Proof.
  unfold channel_keys, all_channels. rewrite !elem_of_cons, elem_of_nil.
  intros H. repeat destruct H as [[= _ <-] | H]; try done; set_solver.
Qed.

Lemma mkdir_inv d s r s' : mkdir d s = (r, s') → dirs s' = {[ d ]} ∪ dirs s.
Proof. by intros [= _ <-]. Qed.

Lemma log_inv e s r s' : log e s = (r, s') → dirs s' = dirs s.
Proof. by intros [= _ <-]. Qed.






(** * Further properties of the construction *)

(** X1. A task name other than "svs" and "gan_svs" makes [__init__]
    raise [ValueError] before anything is loaded: the state is the one
    before the call. *)
Theorem unsupported_task_is_ValueError env a s :
  arg_svs_task a ≠ "svs" → arg_svs_task a ≠ "gan_svs" →
  ∃ msg, SingingGenerate.__init__ env a s = (Raise (ValueError msg), s).
Proof.
  intros H1 H2. unfold SingingGenerate.__init__.
  rewrite !bool_decide_eq_false_2 by done.
  eexists. by erewrite bind_raise.
Qed.

Lemma unsupported_task_is_ValueError_witness :
  ∃ msg,
    SingingGenerate.__init__ (Stub.env (Stub.acoustic other_svs None ∅) [])
      (init_args_of (Stub.args 1 0) "tts") Stub.empty_store
    = (Raise (ValueError msg), Stub.empty_store).
Proof. apply unsupported_task_is_ValueError; discriminate. Defined.

(** X2. When [__init__] returns, the object has a vocoder exactly when
    a vocoder checkpoint was given, and the vocoder builder has been
    called exactly in that case; the decoding configuration is a new
    dictionary object, and every dictionary that existed before is
    unchanged. *)
Theorem init_vocoder_iff_checkpoint env a s self s' :
  SingingGenerate.__init__ env a s = (Ok self, s') →
  (is_Some (SingingGenerate.vocoder self) ↔ is_Some (arg_vocoder_checkpoint a))
  ∧ trace s'
    = trace s ++ CallBuildModel (arg_svs_task a)
        :: match arg_vocoder_checkpoint a with
           | Some _ => [CallBuildVocoder]
           | None => []
           end
  ∧ heap s !! SingingGenerate.decode_conf self = None
  ∧ (∀ l, l ≠ SingingGenerate.decode_conf self → heap s' !! l = heap s !! l)
  ∧ dirs s' = dirs s.
Proof.
  unfold SingingGenerate.__init__. intros H.
  apply bind_inv in H as [([] & s0 & H0 & H)|(? & _ & ?)]; [|done].
  assert (s0 = s) as ->.
  { repeat case_bool_decide; by inversion H0. }
  apply bind_inv in H as [([] & s1 & [= <-] & H)|(? & _ & ?)]; [|done].
  apply bind_inv in H as [(m & s2 & Hm & H)|(? & _ & ?)]; [|done].
  apply lift_inv in Hm as [_ ->].
  apply bind_inv in H as [(v & s3 & Hv & H)|(? & _ & ?)]; [|done].
  apply bind_inv in H as [(l & s4 & [= <- <-] & H)|(? & _ & ?)]; [|done].
  unfold mret, M_ret in H. injection H as <- <-. cbn [SingingGenerate.vocoder
    SingingGenerate.decode_conf heap trace dirs].
  assert ((is_Some v ↔ is_Some (arg_vocoder_checkpoint a))
          ∧ heap s3 = heap s
          ∧ dirs s3 = dirs s
          ∧ trace s3
            = trace s ++ CallBuildModel (arg_svs_task a)
                :: match arg_vocoder_checkpoint a with
           | Some _ => [CallBuildVocoder]
           | None => []
           end)
    as (Hiff & Hh & Hd & Ht).
  { destruct (arg_vocoder_checkpoint a) as [ckpt|].
    - apply bind_inv in Hv as [([] & s5 & [= <-] & Hv)|(? & _ & ?)]; [|done].
      apply bind_inv in Hv as [(voc & s6 & Hb & Hv)|(? & _ & ?)]; [|done].
      apply lift_inv in Hb as [_ ->].
      unfold mret, M_ret in Hv. injection Hv as <- <-. cbn.
      rewrite <- app_assoc. split; [split; eauto|done].
    - unfold mret, M_ret in Hv. injection Hv as <- <-. cbn.
      split; [|done]. split; intros [? ?]; done. }
  rewrite Hh, Hd. split; [done|]. split; [done|].
  split; [apply fresh_not_allocated|].
  split; [|done]. intros l Hl. by rewrite lookup_insert_ne.
Qed.

Lemma init_vocoder_iff_checkpoint_witness :
  ∃ self s',
    SingingGenerate.__init__ (Stub.env (Stub.acoustic other_svs None ∅) [])
      (init_args_of (Stub.args 1 0) "svs") Stub.store = (Ok self, s')
    ∧ (is_Some (SingingGenerate.vocoder self)
       ↔ is_Some (arg_vocoder_checkpoint (init_args_of (Stub.args 1 0) "svs")))
    ∧ trace s'
      = trace Stub.store ++ CallBuildModel "svs"
          :: match arg_vocoder_checkpoint (init_args_of (Stub.args 1 0) "svs")
             with
             | Some _ => [CallBuildVocoder]
             | None => []
             end
    ∧ heap Stub.store !! SingingGenerate.decode_conf self = None
    ∧ (∀ l, l ≠ SingingGenerate.decode_conf self →
            heap s' !! l = heap Stub.store !! l)
    ∧ dirs s' = dirs Stub.store.
Proof.
  eexists _, _. split; [reflexivity|].
  apply (init_vocoder_iff_checkpoint
           (Stub.env (Stub.acoustic other_svs None ∅) [])
           (init_args_of (Stub.args 1 0) "svs") Stub.store).
  reflexivity.
Defined.
(** * Further properties of the synthesis call *)

(** ** The batch *)

Lemma update_unless_None_well_formed k v batch :
  k ∈ conditioning_slots → k ≠ "text" →
  batch_well_formed batch →
  batch_well_formed (SingingGenerate.update_unless_None k v batch).
Proof.
  intros Hk Hne [Ht Hb]. unfold SingingGenerate.update_unless_None.
  destruct (is_None v) eqn:Hv; [done|]. split.
  - by rewrite lookup_insert_ne.
  - intros k' v'. rewrite lookup_insert. case_decide as E.
    + intros [= <-]. subst k'. split; [done|]. intros _ ->. done.
    + apply Hb.
Qed.

Lemma singleton_text_well_formed v :
  batch_well_formed ({[ "text" := v ]} : gmap string pyval).
Proof.
  split; [by rewrite lookup_singleton_eq|].
  intros k v'. rewrite lookup_singleton. case_decide as E; [|done].
  intros [= <-]. subst k. split; [|done].
  by apply (bool_decide_unpack _).
Qed.

(** X3. Whatever the arguments, a batch that [prepare_batch] builds has
    a "text" entry, has no keyword outside the fifteen conditioning
    slots, and has no [None] under any keyword other than "text": an
    argument that is [None] is left out, not passed on. *)
Theorem prepared_batch_is_well_formed self a s batch s' :
  SingingGenerate.prepare_batch self a s = (Ok batch, s') →
  batch_well_formed batch.
Proof.
  unfold SingingGenerate.prepare_batch. intros H.
  apply bind_inv in H as [(tup & s1 & Hfirst & H)|(? & _ & ?)]; [|done].
  destruct tup as [[[[[[[batch0 label] midi] duration_phn] duration_ruled_phn]
    duration_syb] phn_cnt] slur].
  unfold mret, M_ret in H. injection H as <- <-.
  assert (batch_well_formed batch0) as H0.
  { destruct (SingingGenerate.a_text a) as [text|x].
    - repeat (apply bind_inv in Hfirst as [(? & ? & _ & Hfirst)|(? & _ & ?)];
              [|done]).
      unfold mret, M_ret in Hfirst. injection Hfirst as <- _ _ _ _ _ _ _ _.
      apply singleton_text_well_formed.
    - unfold mret, M_ret in Hfirst. injection Hfirst as <- _ _ _ _ _ _ _ _.
      apply singleton_text_well_formed. }
  repeat (apply update_unless_None_well_formed;
          [by apply (bool_decide_unpack _) | done |]).
  exact H0.
Qed.

Lemma prepared_batch_is_well_formed_witness :
  ∃ batch s',
    SingingGenerate.prepare_batch
      (Stub.orchestrator (Stub.acoustic other_svs None ∅) None 1 "frame")
      (Stub.call None ∅) Stub.store = (Ok batch, s')
    ∧ batch_well_formed batch.
Proof.
  eexists _, _. split; [reflexivity|].
  eapply (prepared_batch_is_well_formed
            (Stub.orchestrator (Stub.acoustic other_svs None ∅) None 1 "frame")
            (Stub.call None ∅) Stub.store).
  reflexivity.
Defined.
(** ** The dictionary form of [text] *)

Lemma check_inputs_pass self a s :
  needed_slots_supplied self a →
  SingingGenerate.check_inputs self a s = (Ok (), s).
Proof.
  intros (H1 & H2 & H3). unfold SingingGenerate.check_inputs.
  destruct (SingingGenerate.use_sids self) eqn:E1; simpl.
  - destruct (H1 eq_refl) as [? ->]. simpl.
    destruct (SingingGenerate.use_lids self) eqn:E2; simpl.
    + destruct (H2 eq_refl) as [? ->]. simpl.
      destruct (SingingGenerate.use_spembs self) eqn:E3; simpl; [|done].
      by destruct (H3 eq_refl) as [? ->].
    + destruct (SingingGenerate.use_spembs self) eqn:E3; simpl; [|done].
      by destruct (H3 eq_refl) as [? ->].
  - destruct (SingingGenerate.use_lids self) eqn:E2; simpl.
    + destruct (H2 eq_refl) as [? ->]. simpl.
      destruct (SingingGenerate.use_spembs self) eqn:E3; simpl; [|done].
      by destruct (H3 eq_refl) as [? ->].
    + destruct (SingingGenerate.use_spembs self) eqn:E3; simpl; [|done].
      by destruct (H3 eq_refl) as [? ->].
Qed.

(** X4. A dictionary [text] that the decorator accepts (its values
    are tuples) and that has no "score" entry, or has a score but
    neither a "label" nor a "text" entry, makes the call raise
    [KeyError] (for "score", else for "text") before the preprocessing
    function or the model is called: the state is the one before the
    call. *)
Theorem dict_text_missing_entry_is_KeyError self a s text :
  needed_slots_supplied self a →
  SingingGenerate.a_text a = SingingGenerate.TextDict text →
  values_are_tuples text →
  text !! "score" = None ∨ (text !! "label" = None ∧ text !! "text" = None) →
  SingingGenerate.__call__ self a s
  = (Raise (KeyError (if bool_decide (text !! "score" = None)
                      then "score" else "text")), s).
Proof.
  intros Hslots Ht _ Hmiss.
  unfold SingingGenerate.__call__, SingingGenerate.run_model.
  erewrite bind_raise; [reflexivity|].
  erewrite bind_ok by (by apply check_inputs_pass).
  erewrite bind_raise; [reflexivity|].
  unfold SingingGenerate.prepare_batch. rewrite Ht.
  erewrite bind_raise; [reflexivity|].
  destruct (text !! "score") as [score|] eqn:Hs.
  - destruct Hmiss as [? | [Hl Hx]]; [done|].
    rewrite bool_decide_eq_false_2 by done.
    erewrite bind_ok by (unfold getitem; rewrite Hs; reflexivity).
    erewrite bind_raise; [reflexivity|].
    by rewrite Hl; unfold getitem; rewrite Hx.
  - rewrite bool_decide_eq_true_2 by done.
    erewrite bind_raise; [reflexivity|]. unfold getitem. by rewrite Hs.
Qed.

Lemma dict_text_missing_entry_is_KeyError_witness :
  let text : gmap string pyval := {[ "text" := PTuple [PStr "r en en"] ]} in
  SingingGenerate.__call__
    (Stub.orchestrator (Stub.acoustic other_svs None ∅) None 1 "frame")
    (Sample.call_dict text) Stub.store
  = (Raise (KeyError "score"), Stub.store).
Proof.
  intros text. etrans.
  - apply (dict_text_missing_entry_is_KeyError
             (Stub.orchestrator (Stub.acoustic other_svs None ∅) None 1 "frame")
             (Sample.call_dict text) Stub.store text);
      [repeat split; discriminate | reflexivity
      | by apply map_Forall_singleton | left; reflexivity].
  - reflexivity.
Defined.
Lemma lookup_update_unless_None_ne k v (batch : gmap string pyval) k' :
  k ≠ k' → SingingGenerate.update_unless_None k v batch !! k' = batch !! k'.
Proof.
  intros. unfold SingingGenerate.update_unless_None.
  destruct (is_None v); [done|]. by rewrite lookup_insert_ne.
Qed.

Lemma lookup_update_unless_None_eq k v (batch : gmap string pyval) :
  SingingGenerate.update_unless_None k v batch !! k
  = if is_None v then batch !! k else Some v.
Proof.
  unfold SingingGenerate.update_unless_None.
  destruct (is_None v); [done|]. by rewrite lookup_insert_eq.
Qed.

(** X5. With a dictionary [text], the call hands the score and the label
    (the "text" entry only when there is no "label") to the
    preprocessing function under the id "<dummy>", and builds the batch
    from what that returns: the model's "text" is the preprocessed
    label, and each of label, midi, the three durations, the phoneme
    count and the slur flags is the preprocessed one, left out when it
    is [None]; the arguments of these names given to the call are not
    used. *)
Theorem dict_text_batch_comes_from_preprocessing self a s text batch s' :
  SingingGenerate.a_text a = SingingGenerate.TextDict text →
  SingingGenerate.prepare_batch self a s = (Ok batch, s') →
  ∃ score infer_data data,
    text !! "score" = Some score
    ∧ infer_data
      = match text !! "label" with
        | Some l => <["label" := l]> {[ "score" := score ]}
        | None => <["text" := default PNone (text !! "text")]>
                    {[ "score" := score ]}
        end
    ∧ s' = mkState (heap s) (trace s ++ [CallPreprocess "<dummy>" infer_data])
             (dirs s)
    ∧ model_preprocess_fn (SingingGenerate.model self) "<dummy>" infer_data
      = Ok data
    ∧ batch !! "text" = data !! "label"
    ∧ ∀ k, k ∈ preprocessed_slots →
           ∃ v, data !! k = Some v
                ∧ batch !! k = if is_None v then None else Some v.
Proof.
  intros Ht H. unfold SingingGenerate.prepare_batch in H. rewrite Ht in H.
  apply bind_inv in H as [(tup & s1 & Hfirst & H)|(? & _ & ?)]; [|done].
  destruct tup as [[[[[[[batch0 label] midi] duration_phn] duration_ruled_phn]
    duration_syb] phn_cnt] slur].
  unfold mret, M_ret in H. injection H as <- <-.
  apply bind_inv in Hfirst as [(score & s2 & Hscore & Hfirst)|(? & _ & ?)];
    [|done].
  apply lift_inv in Hscore as [Hscore ->].
  apply bind_inv in Hfirst as [(infer_data & s2 & Hinfer & Hfirst)|(? & _ & ?)];
    [|done].
  apply lift_inv in Hinfer as [Hinfer ->].
  apply bind_inv in Hfirst as [([] & s2 & [= <-] & Hfirst)|(? & _ & ?)];
    [|done].
  apply bind_inv in Hfirst as [(data & s2 & Hdata & Hfirst)|(? & _ & ?)];
    [|done].
  apply lift_inv in Hdata as [Hdata ->].
  repeat match type of Hfirst with
         | (lift (getitem data ?k) ≫= _) _ = _ =>
             let v := fresh "v" in
             let E := fresh "E" in
             apply bind_inv in Hfirst as [(v & ? & E & Hfirst)|(? & _ & ?)];
               [|done];
             apply lift_inv in E as [E ->];
             unfold getitem in E;
             destruct (data !! k) eqn:?; [|done];
             injection E as <-
         end.
  unfold mret, M_ret in Hfirst.
  injection Hfirst as <- <- <- <- <- <- <- <- <-.
  unfold getitem in Hscore. destruct (text !! "score") as [score0|]; [|done].
  injection Hscore as ->.
  exists score0, infer_data, data. split; [done|]. split.
  { destruct (text !! "label"); [by injection Hinfer as ->|].
    unfold getitem in Hinfer. destruct (text !! "text"); [|done].
    by injection Hinfer as ->. }
  split; [done|]. split; [done|]. split.
  { rewrite !lookup_update_unless_None_ne by done.
    by rewrite lookup_singleton_eq. }
  intros k Hk. unfold preprocessed_slots in Hk.
  rewrite !elem_of_cons, elem_of_nil in Hk.
  destruct Hk as [->|[->|[->|[->|[->|[->|[->|[]]]]]]]];
    (eexists; split; [eassumption|]);
    rewrite ?lookup_update_unless_None_ne by done;
    rewrite lookup_update_unless_None_eq;
    (destruct (is_None _); [|done]);
    rewrite ?lookup_update_unless_None_ne by done;
    by rewrite lookup_singleton_ne.
Qed.

Lemma dict_text_batch_comes_from_preprocessing_witness :
  let self := Stub.orchestrator (Sample.acoustic Stub.out_feat) None 1 "frame" in
  let a := Sample.call_dict Sample.score_and_label in
  ∃ batch s',
    SingingGenerate.prepare_batch self a Stub.store = (Ok batch, s')
    ∧ ∃ score infer_data data,
        Sample.score_and_label !! "score" = Some score
        ∧ infer_data
          = match Sample.score_and_label !! "label" with
            | Some l => <["label" := l]> {[ "score" := score ]}
            | None =>
                <["text" := default PNone (Sample.score_and_label !! "text")]>
                  {[ "score" := score ]}
            end
        ∧ s' = mkState (heap Stub.store)
                 (trace Stub.store ++ [CallPreprocess "<dummy>" infer_data])
                 (dirs Stub.store)
        ∧ model_preprocess_fn (SingingGenerate.model self) "<dummy>" infer_data
          = Ok data
        ∧ batch !! "text" = data !! "label"
        ∧ ∀ k, k ∈ preprocessed_slots →
               ∃ v, data !! k = Some v
                    ∧ batch !! k = if is_None v then None else Some v.
Proof.
  intros self a. eexists _, _. split; [reflexivity|].
  eapply (dict_text_batch_comes_from_preprocessing self a Stub.store);
    reflexivity.
Defined.

(** ** The configuration of a call *)

Lemma call_config_override_total self a s override :
  SingingGenerate.a_decode_conf a = Some override →
  let cfg := override ∪ (heap s !!! SingingGenerate.decode_conf self) in
  (SingingGenerate.call_config self a ≫= deref) s
  = (Ok cfg, mkState (<[fresh (dom (heap s)) := cfg]> (heap s))
               (trace s) (dirs s)).
Proof.
  intros Ha cfg. unfold SingingGenerate.call_config. rewrite Ha.
  unfold dict_copy, dict_update, deref, alloc, mbind, M_bind, mret, M_ret.
  simpl. rewrite !lookup_total_insert_eq. by rewrite insert_insert_eq.
Qed.

(** X6. An override that has a keyword of the batch (such as "text",
    which every batch has) makes the call raise [TypeError]: the model's
    [inference] would get the keyword twice.  The model is not invoked;
    the events of the call are those of preparing the batch. *)
Theorem override_with_batch_keyword_is_TypeError
    self a s batch s0 override k :
  needed_slots_supplied self a →
  SingingGenerate.prepare_batch self a s = (Ok batch, s0) →
  SingingGenerate.a_decode_conf a = Some override →
  is_Some (batch !! k) → is_Some (override !! k) →
  ∃ msg s',
    SingingGenerate.__call__ self a s = (Raise (TypeError msg), s')
    ∧ trace s' = trace s0.
Proof.
  intros Hslots Hb Ha Hkb Hko.
  unfold SingingGenerate.__call__, SingingGenerate.run_model.
  eexists _, _. split.
  - erewrite bind_raise; [reflexivity|].
    erewrite bind_ok by (by apply check_inputs_pass).
    erewrite bind_ok by exact Hb.
    rewrite bind_assoc.
    erewrite bind_ok by (by apply call_config_override_total).
    unfold SingingGenerate.call_model_inference.
    rewrite bool_decide_eq_false_2; [reflexivity|].
    intros E. assert (k ∈ dom batch ∩ dom (override ∪
      (heap s0 !!! SingingGenerate.decode_conf self))) as Hin.
    { rewrite elem_of_intersection, dom_union, elem_of_union, !elem_of_dom.
      auto. }
    rewrite E in Hin. set_solver.
  - reflexivity.
Qed.

Lemma override_with_batch_keyword_is_TypeError_witness :
  let self := Stub.orchestrator (Stub.acoustic other_svs None Stub.out_feat)
                None 1 "frame" in
  let a := Stub.call (Some {[ "text" := PStr "la" ]}) ∅ in
  ∃ msg s',
    SingingGenerate.__call__ self a Stub.store = (Raise (TypeError msg), s')
    ∧ trace s' = trace Stub.store.
Proof.
  intros self a.
  apply (override_with_batch_keyword_is_TypeError self a Stub.store
           {[ "text" := PTensor Stub.text ]} Stub.store
           {[ "text" := PStr "la" ]} "text").
  - repeat split; discriminate.
  - reflexivity.
  - reflexivity.
  - by eexists.
  - by eexists.
Defined.

(** The first phase of a call without an override. *)
Lemma run_model_without_override self a s r s1 :
  SingingGenerate.a_decode_conf a = None →
  SingingGenerate.run_model self a s = (r, s1) →
  heap s1 = heap s
  ∧ ∃ evs, trace s1 = trace s ++ evs
    ∧ ((model_calls evs = [] ∧ is_ok r = false)
       ∨ ∃ batch,
           model_calls evs
           = [(batch, heap s !!! SingingGenerate.decode_conf self)]).
Proof.
  intros Ha H. unfold SingingGenerate.run_model in H.
  apply bind_inv in H as [(? & s0 & H0 & H)|(e & H0 & ->)]; cycle 1.
  { apply check_inputs_state in H0 as ->. split; [done|].
    exists []. rewrite app_nil_r. auto. }
  apply check_inputs_state in H0 as ->.
  apply bind_inv in H as [(batch & s0 & H0 & H)|(e & H0 & ->)]; cycle 1.
  { pose proof (prepare_batch_same_heap _ _ _ _ _ H0) as Hh.
    apply prepare_batch_no_model_call in H0 as (evs & Ht & Hevs).
    split; [done|]. exists evs. split; [done|]. left.
    by rewrite (model_calls_none _ Hevs). }
  pose proof (prepare_batch_same_heap _ _ _ _ _ H0) as Hh. red in Hh.
  apply prepare_batch_no_model_call in H0 as (evs & Ht & Hevs).
  rewrite bind_assoc in H.
  erewrite bind_ok in H by (by apply call_config_stored).
  apply call_model_inference_inv in H as (Hh1 & _ & Ht1).
  split; [congruence|]. rewrite Hh in Ht1.
  destruct Ht1 as [Ht1 | [Ht1 Hr]].
  - eexists. rewrite Ht1, Ht, <- app_assoc. split; [done|]. right.
    exists batch. by rewrite model_calls_app, (model_calls_none _ Hevs).
  - exists evs. rewrite Ht1. split; [done|]. left.
    by rewrite (model_calls_none _ Hevs).
Qed.

(** X7. A call without an override makes no dictionary: the heap after
    the call is the heap before it, whatever the call returns or
    raises, and the model, if it is invoked, is invoked once, with the
    stored configuration itself; a call that returns has invoked it.
    When the model is invoked, what the call returns or raises is what
    the second phase makes of the output of the model for the batch and
    the stored configuration together, or what the model raised. *)
Theorem call_without_override_uses_stored_configuration self a s r s' :
  SingingGenerate.a_decode_conf a = None →
  SingingGenerate.__call__ self a s = (r, s') →
  let stored := heap s !!! SingingGenerate.decode_conf self in
  heap s' = heap s
  ∧ ∃ evs, trace s' = trace s ++ evs
    ∧ (model_calls evs = []
       ∨ ∃ batch, model_calls evs = [(batch, stored)])
    ∧ (is_ok r = true → model_calls evs ≠ [])
    ∧ ∀ batch, model_calls evs = [(batch, stored)] →
        ∃ s0,
          SingingGenerate.prepare_batch self a s = (Ok batch, s0)
          ∧ let s1 := mkState (heap s)
                        (trace s0 ++ [CallModelInference batch stored])
                        (dirs s0) in
            (r, s') = match model_inference (SingingGenerate.model self)
                              (batch ∪ stored) with
                      | Ok out_m =>
                          SingingGenerate.postprocess self
                            (SingingGenerate.a_kwargs a) out_m s1
                      | Raise e => (Raise e, s1)
                      end.
Proof.
  intros Ha H stored. pose proof H as Hcall.
  unfold SingingGenerate.__call__ in H.
  assert (heap s' = heap s
          ∧ ∃ evs, trace s' = trace s ++ evs
            ∧ (model_calls evs = []
               ∨ ∃ batch, model_calls evs = [(batch, stored)])
            ∧ (is_ok r = true → model_calls evs ≠ []))
    as (Hheap & evs & Ht & Hcalls & Hok).
  { apply bind_inv in H as [(out & s1 & H0 & H)|(e & H0 & ->)].
    - pose proof (postprocess_same_heap _ _ _ _ _ _ H) as Hh. red in Hh.
      apply postprocess_no_model_call in H as (evs2 & Ht2 & Hevs2).
      apply (run_model_without_override _ _ _ _ _ Ha) in H0
        as (Hh1 & evs1 & Ht1 & Hc).
      split; [congruence|]. exists (evs1 ++ evs2).
      rewrite Ht2, Ht1, <- app_assoc. split; [done|].
      rewrite model_calls_app, (model_calls_none _ Hevs2), app_nil_r.
      destruct Hc as [[_ ?] | [batch ->]]; [done|]. split; [eauto|done].
    - apply (run_model_without_override _ _ _ _ _ Ha) in H0
        as (Hh1 & evs1 & Ht1 & Hc).
      split; [done|]. exists evs1. split; [done|]. split; [|done].
      destruct Hc as [[-> _] | [batch ->]]; eauto. }
  split; [exact Hheap|]. exists evs.
  split; [exact Ht|]. split; [exact Hcalls|]. split; [exact Hok|].
  intros batch Hb.
  destruct (call_after_model _ _ _ _ _ _ _ _ Hcall Ht Hb)
    as (s0 & Hprep & _ & Hres).
  exists s0. split; [exact Hprep|]. rewrite Ha in Hres. exact Hres.
Qed.

Lemma call_without_override_uses_stored_configuration_witness :
  let self := Stub.orchestrator Stub.acoustic_by_conf None 1 "frame" in
  let a := Stub.call None ∅ in
  let s := Stub.store_two in
  let run := SingingGenerate.__call__ self a s in
  let r := run.1 in
  let s' := run.2 in
  let stored := heap s !!! SingingGenerate.decode_conf self in
  r = Ok (without_duration Stub.out_feat)
  ∧ stored = Stub.stored_two
  ∧ heap s' = heap s
  ∧ ∃ evs, trace s' = trace s ++ evs
    ∧ (model_calls evs = []
       ∨ ∃ batch, model_calls evs = [(batch, stored)])
    ∧ (is_ok r = true → model_calls evs ≠ [])
    ∧ ∀ batch, model_calls evs = [(batch, stored)] →
        ∃ s0,
          SingingGenerate.prepare_batch self a s = (Ok batch, s0)
          ∧ let s1 := mkState (heap s)
                        (trace s0 ++ [CallModelInference batch stored])
                        (dirs s0) in
            (r, s') = match model_inference (SingingGenerate.model self)
                              (batch ∪ stored) with
                      | Ok out_m =>
                          SingingGenerate.postprocess self
                            (SingingGenerate.a_kwargs a) out_m s1
                      | Raise e => (Raise e, s1)
                      end.
Proof.
  intros self a s run r s' stored.
  split; [vm_compute; reflexivity|]. split; [reflexivity|].
  apply (call_without_override_uses_stored_configuration self a s r s');
    [reflexivity | apply surjective_pairing].
Defined.
(** ** The vocoder step *)

Lemma vocoder_feature_without_duration self kwargs output :
  vocoder_feature self kwargs (without_duration output)
  = vocoder_feature self kwargs output.
Proof.
  unfold vocoder_feature, without_duration.
  by rewrite !select_input_feat_insert by done.
Qed.

(** The vocoder step is: compute the feature, then check the pitch and
    call the vocoder. *)
Lemma apply_vocoder_feature self voc kwargs output s :
  SingingGenerate.apply_vocoder self voc kwargs output s
  = match vocoder_feature self kwargs output with
    | Raise e => (Raise e, s)
    | Ok input_feat =>
        (wav ←
           match output !! "pitch" with
           | Some (Some pitch) =>
               if bool_decide (ndim pitch = 1) then
                 _ ← lift (SingingGenerate.as_tensor input_feat);
                 SingingGenerate.call_vocoder voc input_feat (Some pitch)
               else raise (AssertionError "pitch shape must be (T,).")
           | _ => SingingGenerate.call_vocoder voc input_feat None
           end;
         mret (<["wav" := Some wav]> output)) s
    end.
Proof.
  unfold SingingGenerate.apply_vocoder, vocoder_feature.
  destruct (SingingGenerate.select_input_feat self output) as [x|e]; [|done].
  cbn [mbind result_bind].
  erewrite bind_ok by reflexivity.
  destruct (1 <? SingingGenerate.discrete_token_layers self)%Z; [|done].
  destruct (SingingGenerate.mix_layers _ _ x) as [y|e]; [|done].
  cbn [mbind result_bind].
  by destruct (match kwargs !! "use_singomd" with
               | Some (PBool true) => SingingGenerate.singomd_feats y
               | _ => Ok y
               end).
Qed.

(** A call whose model output has no attention weights and whose
    orchestrator has a vocoder is the vocoder step on that output. *)
Lemma call_is_vocoder_step self a s out_m s1 voc :
  SingingGenerate.run_model self a s = (Ok out_m, s1) →
  dict_get out_m "att_w" = None →
  SingingGenerate.vocoder self = Some voc →
  SingingGenerate.__call__ self a s
  = SingingGenerate.apply_vocoder self voc (SingingGenerate.a_kwargs a)
      (without_duration out_m) s1.
Proof.
  intros Hm Hatt Hvoc. unfold SingingGenerate.__call__.
  erewrite bind_ok by exact Hm.
  unfold SingingGenerate.postprocess. by rewrite Hatt, Hvoc.
Qed.

(** X8. With a vocoder and a model output that has neither attention
    weights nor a "feat_gen" entry, the call raises [KeyError] for
    "feat_gen" whenever normalized features are preferred or no
    denormalized feature is there; the vocoder is not invoked (the
    state is the one the model call left). *)
Theorem vocoder_without_feature_is_KeyError self a s out_m s1 voc :
  SingingGenerate.run_model self a s = (Ok out_m, s1) →
  dict_get out_m "att_w" = None →
  SingingGenerate.vocoder self = Some voc →
  out_m !! "feat_gen" = None →
  SingingGenerate.prefer_normalized_feats self = true
  ∨ dict_get out_m "feat_gen_denorm" = None →
  SingingGenerate.__call__ self a s = (Raise (KeyError "feat_gen"), s1).
Proof.
  intros Hm Hatt Hvoc Hfeat Hsel.
  rewrite (call_is_vocoder_step _ _ _ _ _ _ Hm Hatt Hvoc).
  rewrite apply_vocoder_feature, vocoder_feature_without_duration.
  unfold vocoder_feature, SingingGenerate.select_input_feat.
  replace (SingingGenerate.prefer_normalized_feats self
           || bool_decide (dict_get out_m "feat_gen_denorm" = None))
    with true; cycle 1.
  { symmetry. apply orb_true_iff.
    destruct Hsel as [-> | ->]; [by left | by right]. }
  unfold getitem. by rewrite Hfeat.
Qed.

Lemma vocoder_without_feature_is_KeyError_witness :
  let self := Stub.orchestrator
                (Stub.acoustic other_svs None {[ "wav" := Some Stub.wav ]})
                (Some Stub.voc) 1 "frame" in
  SingingGenerate.__call__ self (Stub.call None ∅) Stub.store
  = (Raise (KeyError "feat_gen"),
     mkState (heap Stub.store)
       [CallModelInference {[ "text" := PTensor Stub.text ]} Stub.stored_conf]
       ∅).
Proof.
  intros self.
  apply (vocoder_without_feature_is_KeyError self (Stub.call None ∅)
           Stub.store {[ "wav" := Some Stub.wav ]} _ Stub.voc);
    [reflexivity | reflexivity | reflexivity | reflexivity | by right].
Defined.

(** X9. With at most one token layer, neither [mix_type] nor
    [use_singomd] has any effect: whatever they are, the vocoder is
    called once with the selected feature tensor as it is, and the call
    returns or raises what the vocoder does. *)
Theorem single_layer_ignores_mix_type_and_singomd
    self a s out_m s1 voc x :
  SingingGenerate.run_model self a s = (Ok out_m, s1) →
  dict_get out_m "att_w" = None →
  SingingGenerate.vocoder self = Some voc →
  (SingingGenerate.discrete_token_layers self ≤ 1)%Z →
  SingingGenerate.select_input_feat self out_m = Ok (FeatTensor x) →
  (∀ pitch, out_m !! "pitch" = Some (Some pitch) → ndim pitch = 1) →
  let pitch := default None (out_m !! "pitch") in
  SingingGenerate.__call__ self a s
  = (wav ← voc (FeatTensor x) pitch;
     Ok (<["wav" := Some wav]> (without_duration out_m)),
     mkState (heap s1) (trace s1 ++ [CallVocoder (FeatTensor x) pitch])
       (dirs s1)).
Proof.
  intros Hm Hatt Hvoc Hl Hsel Hp pitch.
  rewrite (call_is_vocoder_step _ _ _ _ _ _ Hm Hatt Hvoc).
  rewrite apply_vocoder_feature, vocoder_feature_without_duration.
  unfold vocoder_feature. rewrite Hsel. cbn [mbind result_bind].
  apply Z.ltb_ge in Hl. rewrite Hl.
  assert (without_duration out_m !! "pitch" = out_m !! "pitch") as ->.
  { unfold without_duration. by rewrite !lookup_insert_ne by done. }
  assert (∀ A (m : M Tensor) (f : Tensor → A) r s',
            m s1 = (r, s') →
            (wav ← m; mret (f wav)) s1 = (wav ← r; Ok (f wav), s')) as Hbind.
  { intros A m f r s' E. unfold mbind at 1, M_bind. rewrite E.
    by destruct r. }
  apply Hbind. subst pitch.
  destruct (out_m !! "pitch") as [[p|]|] eqn:E; simpl; try reflexivity.
  rewrite bool_decide_eq_true_2 by eauto.
  erewrite bind_ok by reflexivity. reflexivity.
Qed.

Lemma single_layer_ignores_mix_type_and_singomd_witness :
  let self := Stub.orchestrator (Stub.acoustic other_svs None Stub.out_feat)
                (Some Stub.voc) 1 "bogus" in
  let a := Stub.call None {[ "use_singomd" := PBool true ]} in
  SingingGenerate.__call__ self a Stub.store
  = (Ok (<["wav" := Some Stub.wav']> (without_duration Stub.out_feat)),
     mkState (heap Stub.store)
       ([CallModelInference {[ "text" := PTensor Stub.text ]} Stub.stored_conf]
        ++ [CallVocoder (FeatTensor Stub.feat) None]) ∅).
Proof.
  intros self a.
  apply (single_layer_ignores_mix_type_and_singomd self a Stub.store
           Stub.out_feat
           (mkState (heap Stub.store)
              [CallModelInference {[ "text" := PTensor Stub.text ]}
                 Stub.stored_conf] ∅)
           Stub.voc Stub.feat);
    try reflexivity; discriminate.
Defined.

(** X10. When the model output carries a pitch curve that is not
    one-dimensional, the call raises [AssertionError] once the feature
    for the vocoder has been computed; the vocoder is not invoked. *)
Theorem pitch_not_one_dimensional_is_AssertionError
    self a s out_m s1 voc x pitch :
  SingingGenerate.run_model self a s = (Ok out_m, s1) →
  dict_get out_m "att_w" = None →
  SingingGenerate.vocoder self = Some voc →
  vocoder_feature self (SingingGenerate.a_kwargs a) out_m = Ok x →
  out_m !! "pitch" = Some (Some pitch) →
  ndim pitch ≠ 1 →
  SingingGenerate.__call__ self a s
  = (Raise (AssertionError "pitch shape must be (T,)."), s1).
Proof.
  intros Hm Hatt Hvoc Hx Hp Hn.
  rewrite (call_is_vocoder_step _ _ _ _ _ _ Hm Hatt Hvoc).
  rewrite apply_vocoder_feature, vocoder_feature_without_duration, Hx.
  assert (without_duration out_m !! "pitch" = out_m !! "pitch") as ->.
  { unfold without_duration. by rewrite !lookup_insert_ne by done. }
  rewrite Hp, bool_decide_eq_false_2 by done. reflexivity.
Qed.

Lemma pitch_not_one_dimensional_is_AssertionError_witness :
  let self := Stub.orchestrator
                (Stub.acoustic other_svs None Sample.out_feat_pitch_2d)
                (Some Stub.voc) 1 "frame" in
  SingingGenerate.__call__ self (Stub.call None ∅) Stub.store
  = (Raise (AssertionError "pitch shape must be (T,)."),
     mkState (heap Stub.store)
       [CallModelInference {[ "text" := PTensor Stub.text ]} Stub.stored_conf]
       ∅).
Proof.
  intros self.
  apply (pitch_not_one_dimensional_is_AssertionError self (Stub.call None ∅)
           Stub.store Sample.out_feat_pitch_2d _ Stub.voc
           (FeatTensor Stub.feat) Sample.pitch_2d);
    try reflexivity. discriminate.
Defined.
(** ** Token layers that do not divide the length *)

Lemma infer_size_indivisible (L n : nat) (shape : list Z) :
  shape = [-1; Z.of_nat L]%Z ∨ shape = [Z.of_nat L; -1]%Z →
  n mod L ≠ 0 →
  infer_size shape n = Raise (RuntimeError "shape is invalid for input size").
Proof.
  intros Hshape Hmod. unfold infer_size.
  assert (infer_scan shape 0 1 None = Ok (1 * L, Some 0)
          ∨ infer_scan shape 0 1 None = Ok (1 * L, Some 1)) as Hscan.
  { destruct Hshape as [-> | ->].
    - left. change (infer_scan [-1; Z.of_nat L]%Z 0 1 None)
        with (infer_scan [Z.of_nat L] 1 1 (Some 0)).
      by rewrite infer_scan_nonneg.
    - right. by rewrite infer_scan_nonneg. }
  assert ((n =? 1 * L) = false) as E1.
  { apply Nat.eqb_neq. intros ->. apply Hmod.
    rewrite Nat.mul_1_l. apply Nat.Div0.mod_same. }
  assert ((n mod (1 * L) =? 0) = false) as E2.
  { apply Nat.eqb_neq. by rewrite Nat.mul_1_l. }
  destruct Hscan as [-> | ->]; cbn [mbind result_bind];
    by rewrite E1, E2, andb_false_r.
Qed.

Lemma mix_layers_indivisible (L : nat) mix data :
  (Z.of_nat L < 2 ^ 63)%Z →
  mix = "frame" ∨ mix = "sequence" →
  length data mod L ≠ 0 →
  SingingGenerate.mix_layers (Z.of_nat L) mix (FeatTensor (flat data))
  = Raise (RuntimeError "shape is invalid for input size").
Proof.
  intros Hfit Hmix Hmod. unfold SingingGenerate.mix_layers.
  assert (numel (flat data) mod L ≠ 0) as Hn.
  { unfold numel, flat, numel_of. simpl. by rewrite Nat.mul_1_r. }
  destruct Hmix as [-> | ->].
  - rewrite bool_decide_eq_true_2 by done.
    cbn [SingingGenerate.as_tensor mbind result_bind].
    rewrite view_fits by (by apply fits_frame).
    by rewrite (infer_size_indivisible L) by auto.
  - rewrite bool_decide_eq_false_2 by done.
    rewrite bool_decide_eq_true_2 by done.
    cbn [SingingGenerate.as_tensor mbind result_bind].
    rewrite view_fits by (by apply fits_sequence).
    by rewrite (infer_size_indivisible L) by auto.
Qed.

(** X11. With more than one token layer, a number that fits in 64
    bits, and [mix_type] "frame" or "sequence", a flat feature whose
    length is not a multiple of the number of layers makes the call
    raise [RuntimeError] (the view is refused); the vocoder is not
    invoked. *)
Theorem layers_not_dividing_length_is_RuntimeError
    self a s out_m s1 voc (L : nat) data :
  SingingGenerate.run_model self a s = (Ok out_m, s1) →
  dict_get out_m "att_w" = None →
  SingingGenerate.vocoder self = Some voc →
  SingingGenerate.discrete_token_layers self = Z.of_nat L →
  1 < L → (Z.of_nat L < 2 ^ 63)%Z →
  SingingGenerate.mix_type self = "frame"
  ∨ SingingGenerate.mix_type self = "sequence" →
  SingingGenerate.select_input_feat self out_m = Ok (FeatTensor (flat data)) →
  length data mod L ≠ 0 →
  ∃ msg, SingingGenerate.__call__ self a s = (Raise (RuntimeError msg), s1).
Proof.
  intros Hm Hatt Hvoc HL H1 Hfit Hmix Hsel Hmod.
  rewrite (call_is_vocoder_step _ _ _ _ _ _ Hm Hatt Hvoc).
  rewrite apply_vocoder_feature, vocoder_feature_without_duration.
  unfold vocoder_feature. rewrite Hsel, HL. cbn [mbind result_bind].
  replace (1 <? Z.of_nat L)%Z with true by (symmetry; apply Z.ltb_lt; lia).
  rewrite mix_layers_indivisible by done. eauto.
Qed.

Lemma layers_not_dividing_length_is_RuntimeError_witness :
  let self := Stub.orchestrator
                (Stub.acoustic other_svs None Sample.out_tokens5)
                (Some Stub.voc) 2 "sequence" in
  ∃ msg,
    SingingGenerate.__call__ self (Stub.call None ∅) Stub.store
    = (Raise (RuntimeError msg),
       mkState (heap Stub.store)
         [CallModelInference {[ "text" := PTensor Stub.text ]} Stub.stored_conf]
         ∅).
Proof.
  intros self.
  apply (layers_not_dividing_length_is_RuntimeError self (Stub.call None ∅)
           Stub.store Sample.out_tokens5 _ Stub.voc 2 Sample.tokens5);
    first [reflexivity | lia | by right | discriminate].
Defined.

(** X18. With [mix_type] "frame" or "sequence" and a number of token
    layers of [2^63] or more, the call raises [TypeError] whatever the
    feature tensor is: the number cannot be unpacked as a size of the
    view.  The vocoder is not invoked. *)
Theorem layers_beyond_int64_is_TypeError self a s out_m s1 voc x :
  SingingGenerate.run_model self a s = (Ok out_m, s1) →
  dict_get out_m "att_w" = None →
  SingingGenerate.vocoder self = Some voc →
  (2 ^ 63 ≤ SingingGenerate.discrete_token_layers self)%Z →
  SingingGenerate.mix_type self = "frame"
  ∨ SingingGenerate.mix_type self = "sequence" →
  SingingGenerate.select_input_feat self out_m = Ok (FeatTensor x) →
  ∃ msg, SingingGenerate.__call__ self a s = (Raise (TypeError msg), s1).
Proof.
  intros Hm Hatt Hvoc HL Hmix Hsel.
  rewrite (call_is_vocoder_step _ _ _ _ _ _ Hm Hatt Hvoc).
  rewrite apply_vocoder_feature, vocoder_feature_without_duration.
  unfold vocoder_feature. rewrite Hsel. cbn [mbind result_bind].
  replace (1 <? SingingGenerate.discrete_token_layers self)%Z with true
    by (symmetry; apply Z.ltb_lt; lia).
  assert (fits_int64 (SingingGenerate.discrete_token_layers self) = false)
    as Hfit.
  { unfold fits_int64. apply andb_false_iff. right. apply Z.ltb_ge. lia. }
  unfold SingingGenerate.mix_layers.
  destruct Hmix as [-> | ->].
  - rewrite bool_decide_eq_true_2 by done.
    cbn [SingingGenerate.as_tensor mbind result_bind].
    destruct (view_overflow x [-1; SingingGenerate.discrete_token_layers self]%Z)
      as [msg ->]; [|by eauto].
    cbn [forallb]. by rewrite Hfit, andb_false_r.
  - rewrite bool_decide_eq_false_2 by done.
    rewrite bool_decide_eq_true_2 by done.
    cbn [SingingGenerate.as_tensor mbind result_bind].
    destruct (view_overflow x [SingingGenerate.discrete_token_layers self; -1]%Z)
      as [msg ->]; [|by eauto].
    cbn [forallb]. by rewrite Hfit.
Qed.

Lemma layers_beyond_int64_is_TypeError_witness :
  let self := Stub.orchestrator
                (Stub.acoustic other_svs None Sample.out_tokens5)
                (Some Stub.voc) (2 ^ 63) "frame" in
  ∃ msg,
    SingingGenerate.__call__ self (Stub.call None ∅) Stub.store
    = (Raise (TypeError msg),
       mkState (heap Stub.store)
         [CallModelInference {[ "text" := PTensor Stub.text ]} Stub.stored_conf]
         ∅).
Proof.
  intros self.
  apply (layers_beyond_int64_is_TypeError self (Stub.call None ∅)
           Stub.store Sample.out_tokens5 _ Stub.voc (flat Sample.tokens5));
    first [reflexivity | done | by left].
Defined.

(** ** The decomposition for [use_singomd] *)

(** X12. For a feature of two dimensions with at least two columns,
    the decomposition gives a dictionary with the keys 20 and 40: under
    20 the first column, every row, as a column vector; under 40 the
    second column, every other row from the first, as a column vector.
    Columns after the second are not used. *)
Theorem singomd_feats_columns storage_ off T K s0 s1 :
  2 ≤ K →
  let x := mkTensor storage_ off [T; K] [s0; s1] in
  ∃ f20 f40,
    SingingGenerate.singomd_feats (FeatTensor x)
    = Ok (FeatDict [(20%Z, f20); (40%Z, f40)])
    ∧ sizes f20 = [T; 1]
    ∧ sizes f40 = [(T + 1) / 2; 1]
    ∧ (∀ t, t < T → tensor_get f20 [t; 0] = tensor_get x [t; 0])
    ∧ (∀ t, 2 * t < T → tensor_get f40 [t; 0] = tensor_get x [2 * t; 1]).
Proof.
  intros HK x. unfold SingingGenerate.singomd_feats.
  change (imap (fun i rs => (i, rs)) [20; 40]%Z) with [(0, 20%Z); (1, 40%Z)].
  cbn [mbind result_bind mapM].
  unfold select_column, x. cbn [sizes strides storage offset].
  destruct (Nat.ltb_spec 0 K); [|lia]. destruct (Nat.ltb_spec 1 K); [|lia].
  cbn [mbind result_bind unsqueeze1 slice_step sizes strides storage offset
       mret result_ret].
  change (Z.to_nat (20 / 20)) with 1. change (Z.to_nat (40 / 20)) with 2.
  cbn [Nat.eqb mbind result_bind mret result_ret].
  rewrite Nat.add_sub, Nat.div_1_r, Nat.mul_1_r.
  replace (T + 2 - 1) with (T + 1) by lia.
  eexists _, _. split; [reflexivity|].
  cbn [sizes]. split; [done|]. split; [done|]. split.
  - intros t Ht. rewrite !tensor_get_2d by lia. f_equal. lia.
  - intros t Ht.
    assert (t < (T + 1) / 2) by (apply Nat.div_le_lower_bound; lia).
    rewrite !tensor_get_2d by lia. f_equal. lia.
Qed.

Lemma singomd_feats_columns_witness :
  let x := mkTensor Stub.tokens6 0 [3; 2] [2; 1] in
  ∃ f20 f40,
    SingingGenerate.singomd_feats (FeatTensor x)
    = Ok (FeatDict [(20%Z, f20); (40%Z, f40)])
    ∧ sizes f20 = [3; 1]
    ∧ sizes f40 = [(3 + 1) / 2; 1]
    ∧ (∀ t, t < 3 → tensor_get f20 [t; 0] = tensor_get x [t; 0])
    ∧ (∀ t, 2 * t < 3 → tensor_get f40 [t; 0] = tensor_get x [2 * t; 1]).
Proof.
  apply (singomd_feats_columns Stub.tokens6 0 3 2 2 1). lia.
Defined.
(** * Further properties of the batch runner *)

(** ** One utterance *)

(** X13. A mini-batch whose first tensor does not have exactly one row
    makes the runner raise [AssertionError] before the orchestrator is
    called: the state is unchanged. *)
Theorem several_rows_is_AssertionError sg u keys k v rest s sz0 szs :
  sizes v = sz0 :: szs → sz0 ≠ 1 →
  process_utterance sg u (keys, (k, v) :: rest) s
  = (Raise (AssertionError "_bs"), s).
Proof.
  intros Hv Hne. unfold process_utterance.
  erewrite bind_ok by reflexivity. rewrite Hv.
  erewrite bind_ok by reflexivity.
  erewrite bind_raise; [reflexivity|].
  by destruct (Nat.eqb_spec sz0 1).
Qed.

Lemma several_rows_is_AssertionError_witness :
  process_utterance
    (Stub.orchestrator (Stub.acoustic other_svs None Stub.out_feat) None 1
       "frame")
    false Sample.two_rows Stub.store
  = (Raise (AssertionError "_bs"), Stub.store).
Proof.
  apply (several_rows_is_AssertionError _ _ _ _ _ _ _ 2 [2]);
    [reflexivity | discriminate].
Defined.

Lemma write_if_run present dir key s :
  match present with
  | Some _ => log (WriteChannel dir key)
  | None => mret ()
  end s
  = (Ok (), mkState (heap s) (trace s ++ write_if present dir key) (dirs s)).
Proof.
  destruct present; simpl; [done|].
  unfold mret, M_ret. rewrite app_nil_r. by destruct s.
Qed.

(** What a returned utterance went through: the call that was made, and
    the tests and writes after it. *)
Lemma process_utterance_inv sg u keys batch s output s' :
  process_utterance sg u (keys, batch) s = (Ok output, s') →
  ∃ key a s1,
    keys !! 0 = Some key
    ∧ SingingGenerate.__call__ sg a s = (Ok output, s1)
    ∧ SingingGenerate.a_decode_conf a = None
    ∧ SingingGenerate.a_kwargs a !! "use_singomd" = Some (PBool u)
    ∧ s' = mkState (heap s1) (trace s1 ++ utterance_writes key output) (dirs s1)
    ∧ (is_Some (dict_get output "feat_gen") ∨ is_Some (dict_get output "wav"))
    ∧ (∀ d, dict_get output "duration" = Some d → ndim d ≠ 0)
    ∧ (∀ f, dict_get output "focus_rate" = Some f → numel f = 1)
    ∧ (∀ w, dict_get output "att_w" = Some w → ndim w = 2 ∨ ndim w = 4).
Proof.
  unfold process_utterance. intros H.
  apply bind_inv in H as [(first & ? & H0 & H)|(? & _ & ?)]; [|done].
  apply lift_inv in H0 as [_ ->].
  apply bind_inv in H as [(_bs & ? & H0 & H)|(? & _ & ?)]; [|done].
  apply lift_inv in H0 as [_ ->].
  apply bind_inv in H as [([] & s0 & H0 & H)|(? & _ & ?)]; [|done].
  assert (s0 = s) as -> by (destruct (_bs =? 1); by inversion H0).
  clear H0.
  apply bind_inv in H as [(batch' & ? & H0 & H)|(? & _ & ?)]; [|done].
  apply lift_inv in H0 as [_ ->].
  apply bind_inv in H as [(key & ? & H0 & H)|(? & _ & ?)]; [|done].
  apply lift_inv in H0 as [Hkey ->].
  apply bind_inv in H as [(a & ? & H0 & H)|(? & _ & ?)]; [|done].
  apply lift_inv in H0 as [Ha ->].
  apply bind_inv in H as [(out & s1 & Hcall & H)|(? & _ & ?)]; [|done].
  apply bind_inv in H as [(? & ? & H0 & H)|(? & _ & ?)]; [|done].
  apply lift_inv in H0 as [_ ->].
  exists key, a, s1.
  split; [by destruct keys; simplify_eq|].
  assert (SingingGenerate.a_decode_conf a = None
          ∧ SingingGenerate.a_kwargs a !! "use_singomd" = Some (PBool u))
    as [Hconf Hu].
  { unfold bind_arguments in Ha.
    case_bool_decide; [done|]. case_bool_decide; [done|].
    destruct (_ !! "text"); [|done].
    injection Ha as Ha. subst a. split; [done|]. apply lookup_insert_eq. }
  (* the features, or the waveform *)
  apply bind_inv in H as [([] & s2 & H0 & H)|(? & _ & ?)]; [|done].
  pose (w1 := match dict_get out "feat_gen" with
              | Some _ =>
                  [WriteChannel "norm" key; WriteChannel "speech_shape" key]
                  ++ write_if (dict_get out "feat_gen_denorm") "denorm" key
              | None => []
              end).
  pose (w2 := write_if (dict_get out "duration") "durations" key).
  pose (w3 := write_if (dict_get out "focus_rate") "focus_rates" key).
  pose (w4 := write_if (dict_get out "att_w") "att_ws" key).
  assert (s2 = mkState (heap s1) (trace s1 ++ w1) (dirs s1)
          ∧ (is_Some (dict_get out "feat_gen") ∨ is_Some (dict_get out "wav")))
    as [-> Hfeat].
  { destruct (dict_get out "feat_gen") as [feat_gen|] eqn:Ef.
    - apply bind_inv in H0 as [(? & ? & H1 & H0)|(? & _ & ?)]; [|done].
      apply lift_inv in H1 as [_ ->].
      apply bind_inv in H0 as [([] & ? & [= <-] & H0)|(? & _ & ?)]; [|done].
      apply bind_inv in H0 as [([] & ? & [= <-] & H0)|(? & _ & ?)]; [|done].
      rewrite write_if_run in H0. injection H0 as <-. cbn [heap trace dirs].
      split; [|eauto]. f_equal. by rewrite <- !app_assoc.
    - apply bind_inv in H0 as [(wav & ? & H1 & H0)|(? & _ & ?)]; [|done].
      apply lift_inv in H1 as [Hw ->].
      destruct wav as [wav|]; [|done].
      apply bind_inv in H0 as [(? & ? & H1 & H0)|(? & _ & ?)]; [|done].
      apply lift_inv in H1 as [_ ->]. injection H0 as <-.
      rewrite app_nil_r. split; [by destruct s1|]. right.
      unfold getitem in Hw. unfold dict_get.
      destruct (out !! "wav") as [w|]; [|done]. injection Hw as <-. eauto. }
  (* the duration *)
  try clear H0.
  apply bind_inv in H as [([] & s3 & H0 & H)|(? & _ & ?)]; [|done].
  assert (s3 = mkState (heap s1)
                 ((trace s1 ++ w1) ++ w2)
                 (dirs s1)
          ∧ ∀ d, dict_get out "duration" = Some d → ndim d ≠ 0)
    as [-> Hdur].
  { destruct (dict_get out "duration") as [d|].
    - destruct (Nat.eqb_spec (ndim d) 0); [done|].
      injection H0 as <-. split; [done|]. by intros ? [= <-].
    - injection H0 as <-. cbn [write_if]. rewrite app_nil_r. done. }
  (* the focus rate *)
  try clear H0.
  apply bind_inv in H as [([] & s4 & H0 & H)|(? & _ & ?)]; [|done].
  assert (s4 = mkState (heap s1)
                 (((trace s1 ++ w1) ++ w2) ++ w3)
                 (dirs s1)
          ∧ ∀ f, dict_get out "focus_rate" = Some f → numel f = 1)
    as [-> Hfocus].
  { destruct (dict_get out "focus_rate") as [f|].
    - destruct (Nat.eqb_spec (numel f) 1); [|done].
      injection H0 as <-. split; [done|]. by intros ? [= <-].
    - injection H0 as <-. cbn [write_if]. rewrite app_nil_r. done. }
  (* the attention weights *)
  try clear H0.
  apply bind_inv in H as [([] & s5 & H0 & H)|(? & _ & ?)]; [|done].
  assert (s5 = mkState (heap s1)
                 ((((trace s1 ++ w1) ++ w2) ++ w3) ++ w4)
                 (dirs s1)
          ∧ ∀ w, dict_get out "att_w" = Some w → ndim w = 2 ∨ ndim w = 4)
    as [-> Hatt].
  { destruct (dict_get out "att_w") as [w|].
    - apply bind_inv in H0 as [(shape & sx & H1 & H0)|(? & _ & ?)]; [|done].
      assert (sx = mkState (heap s1) (((trace s1 ++ w1) ++ w2) ++ w3) (dirs s1)
              ∧ (ndim w = 2 ∨ ndim w = 4)) as [-> Hw].
      { destruct (Nat.eqb_spec (ndim w) 2).
        - injection H1 as _ <-. by split; [|left].
        - destruct (Nat.eqb_spec (ndim w) 4); [|done].
          injection H1 as _ <-. by split; [|right]. }
      case_bool_decide; [done|]. injection H0 as <-.
      split; [done|]. by intros ? [= <-].
    - injection H0 as <-. cbn [write_if]. rewrite app_nil_r. done. }
  (* the stop probability and the waveform *)
  try clear H0.
  apply bind_inv in H as [([] & s6 & H0 & H)|(? & _ & ?)]; [|done].
  rewrite write_if_run in H0. injection H0 as <-.
  try clear H0.
  apply bind_inv in H as [([] & s7 & H0 & H)|(? & _ & ?)]; [|done].
  rewrite write_if_run in H0. injection H0 as <-.
  unfold mret, M_ret in H. injection H as <- <-.
  cbn [heap trace dirs].
  split; [done|]. split; [done|]. split; [done|]. split.
  { f_equal. unfold utterance_writes. by rewrite <- !app_assoc. }
  done.
Qed.


(** X14. For an utterance the runner accepts, the output of the call
    has features or a waveform, a duration that is not a scalar, a
    focus rate of one element, and attention weights of two or four
    dimensions (each when present); and after the call the runner has
    written to the channels of the entries that are present, and to no
    other: the shape together with the features, the denormalized
    features only when the features are there too. *)
Theorem accepted_utterance sg u keys batch s output s' :
  process_utterance sg u (keys, batch) s = (Ok output, s') →
  ∃ key a s1,
    keys !! 0 = Some key
    ∧ SingingGenerate.__call__ sg a s = (Ok output, s1)
    ∧ SingingGenerate.a_kwargs a !! "use_singomd" = Some (PBool u)
    ∧ s' = mkState (heap s1) (trace s1 ++ utterance_writes key output) (dirs s1)
    ∧ (is_Some (dict_get output "feat_gen") ∨ is_Some (dict_get output "wav"))
    ∧ (∀ d, dict_get output "duration" = Some d → ndim d ≠ 0)
    ∧ (∀ f, dict_get output "focus_rate" = Some f → numel f = 1)
    ∧ (∀ w, dict_get output "att_w" = Some w → ndim w = 2 ∨ ndim w = 4).
Proof.
  intros H.
  apply process_utterance_inv in H as (key & a & s1 & ? & ? & _ & ?).
  by exists key, a, s1.
Qed.

Lemma accepted_utterance_witness :
  let sg := Stub.orchestrator (Stub.acoustic other_svs None Stub.out_feat)
              None 1 "frame" in
  let item := Stub.item "utt1" [3; 4]%Z in
  let run := process_utterance sg false item Stub.store in
  let out := without_duration Stub.out_feat in
  run.1 = Ok out
  ∧ ∃ key a s1,
      item.1 !! 0 = Some key
      ∧ SingingGenerate.__call__ sg a Stub.store = (Ok out, s1)
      ∧ SingingGenerate.a_kwargs a !! "use_singomd" = Some (PBool false)
      ∧ run.2 = mkState (heap s1)
                  (trace s1 ++ utterance_writes key out) (dirs s1)
      ∧ (is_Some (dict_get out "feat_gen")
         ∨ is_Some (dict_get out "wav"))
      ∧ (∀ d, dict_get out "duration" = Some d → ndim d ≠ 0)
      ∧ (∀ f, dict_get out "focus_rate" = Some f → numel f = 1)
      ∧ (∀ w, dict_get out "att_w" = Some w →
              ndim w = 2 ∨ ndim w = 4).
Proof.
  intros sg item run out.
  split; [vm_compute; reflexivity|].
  apply (accepted_utterance sg false item.1 item.2 Stub.store out
           run.2).
  vm_compute. reflexivity.
Defined.
(** ** A whole run *)

Lemma init_no_model_call env a :
  keeps (trace_grows not_model_call) (SingingGenerate.__init__ env a).
Proof.
  unfold SingingGenerate.__init__.
  repeat keeps_step; unfold not_model_call; simpl; tauto.
Qed.

Lemma utterance_writes_no_model_call key output :
  Forall not_model_call (utterance_writes key output).
Proof.
  unfold utterance_writes, write_if.
  repeat (apply Forall_app; split); repeat case_match;
    repeat constructor; unfold not_model_call; simpl; tauto.
Qed.

(** A call that returns without an override has called the model
    exactly once. *)
Lemma call_returned_one_model_call self a s out s' :
  SingingGenerate.a_decode_conf a = None →
  SingingGenerate.__call__ self a s = (Ok out, s') →
  ∃ evs, trace s' = trace s ++ evs ∧ length (model_calls evs) = 1.
Proof.
  intros Ha H. unfold SingingGenerate.__call__ in H.
  apply bind_inv in H as [(out_m & s1 & H0 & H)|(e & _ & ?)]; [|done].
  apply postprocess_no_model_call in H as (evs2 & Ht2 & Hevs2).
  apply (run_model_without_override _ _ _ _ _ Ha) in H0
    as (_ & evs1 & Ht1 & Hc).
  exists (evs1 ++ evs2). rewrite Ht2, Ht1, <- app_assoc. split; [done|].
  rewrite model_calls_app, (model_calls_none _ Hevs2), app_nil_r.
  by destruct Hc as [[_ ?] | [batch ->]].
Qed.

Lemma process_utterance_one_model_call sg u item s output s' :
  process_utterance sg u item s = (Ok output, s') →
  ∃ evs, trace s' = trace s ++ evs ∧ length (model_calls evs) = 1.
Proof.
  destruct item as [keys batch]. intros H.
  apply process_utterance_inv in H
    as (key & a & s1 & _ & Hcall & Ha & _ & -> & _).
  apply (call_returned_one_model_call _ _ _ _ _ Ha) in Hcall
    as (evs & Ht & Hn).
  exists (evs ++ utterance_writes key output). cbn [trace].
  rewrite Ht, <- app_assoc. split; [done|].
  by rewrite model_calls_app,
    (model_calls_none _ (utterance_writes_no_model_call _ _)), app_nil_r.
Qed.

Lemma for_loader_model_calls sg u loader init s res s' :
  for_loader sg u loader init s = (Ok res, s') →
  ∃ evs, trace s' = trace s ++ evs
         ∧ length (model_calls evs) = length loader.
Proof.
  revert init s. induction loader as [|item rest IH]; intros init s H.
  - injection H as _ <-. exists []. by rewrite app_nil_r.
  - simpl in H.
    apply bind_inv in H as [(output & s1 & H0 & H)|(? & _ & ?)]; [|done].
    apply process_utterance_one_model_call in H0 as (evs1 & Ht1 & Hn1).
    apply IH in H as (evs2 & Ht2 & Hn2).
    exists (evs1 ++ evs2). rewrite Ht2, Ht1, <- app_assoc. split; [done|].
    rewrite model_calls_app, length_app, Hn1, Hn2. done.
Qed.

Lemma for_loader_same_dirs sg u loader init :
  keeps same_dirs (for_loader sg u loader init).
Proof.
  revert init. induction loader as [|item rest IH]; intros init; simpl.
  - keeps_step.
  - apply keeps_bind; [apply _ | apply process_utterance_same_dirs |].
    intros output. apply IH.
Qed.

Lemma rmtree_same_trace d s r s' : rmtree d s = (r, s') → trace s' = trace s.
Proof. unfold rmtree. case_bool_decide; by intros [= _ <-]. Qed.

Lemma remove_unused_same_trace output_dict chs s r s' :
  remove_unused output_dict chs s = (r, s') → trace s' = trace s.
Proof.
  revert s. induction chs as [|[k d] rest IH]; intros s H.
  - by injection H as _ <-.
  - simpl in H.
    apply bind_inv in H as [(output & s0 & H0 & H)|(? & H0 & _)]; cycle 1.
    { destruct output_dict; by injection H0 as _ <-. }
    assert (s0 = s) as -> by (destruct output_dict; by injection H0 as _ <-).
    apply bind_inv in H as [([] & s1 & H1 & H)|(? & H1 & _)].
    + apply IH in H. rewrite H.
      case_bool_decide; [by eapply rmtree_same_trace | by injection H1 as <-].
    + case_bool_decide; [by eapply rmtree_same_trace | done].
Qed.

(** Pruning cannot fail when every channel directory is there. *)
Lemma remove_unused_returns output chs s :
  NoDup chs.*2 → (∀ d, d ∈ chs.*2 → d ∈ dirs s) →
  ∃ s', remove_unused (Some output) chs s = (Ok (), s').
Proof.
  revert s. induction chs as [|[k d] rest IH]; intros s Hnd Hin.
  - by eexists.
  - rewrite fmap_cons in Hnd, Hin. apply NoDup_cons in Hnd as [Hd Hnd].
    simpl in Hd. simpl.
    erewrite bind_ok by reflexivity.
    case_bool_decide.
    + unfold rmtree at 1.
      erewrite bind_ok; cycle 1.
      { unfold rmtree. rewrite bool_decide_eq_true_2; [reflexivity|].
        apply Hin. simpl. set_solver. }
      apply IH; [done|]. intros d' Hd'. cbn [dirs].
      apply elem_of_difference. split; [apply Hin; set_solver|].
      set_solver.
    + erewrite bind_ok by reflexivity. apply IH; [done|].
      intros d' Hd'. apply Hin. set_solver.
Qed.

(** How a run unfolds: it stops before any directory is made, or it
    makes the eight directories, runs the loop, and prunes if the loop
    came to its end. *)
Lemma inference_inv env a s r s' :
  inference env a s = (r, s') →
  (is_ok r = false ∧ dirs s' = dirs s ∧ trace_grows not_model_call s s')
  ∨ ∃ singingGenerate loader s1 res s2,
      build_streaming_iterator env = Ok loader
      ∧ dirs s1 = all_channels ∪ dirs s
      ∧ trace_grows not_model_call s s1
      ∧ for_loader singingGenerate (use_singomd a) loader None s1 = (res, s2)
      ∧ match res with
        | Ok output_dict => remove_unused output_dict channel_keys s2 = (r, s')
        | Raise e => r = Raise e ∧ s' = s2
        end.
Proof.
  intros H. unfold inference in H.
  assert (same_dirs s s ∧ trace_grows not_model_call s s) as Hinv
    by (split; reflexivity).
  revert Hinv H. generalize s at 2 4 5 as s0. intros s0 Hinv H.
  repeat
    lazymatch type of H with
    | (mkdir _ ≫= _) _ = _ => fail
    | (?m ≫= _) ?s0 = _ =>
        let E := fresh "E" in
        assert (keeps same_dirs m) as Kd
          by (repeat first [apply init_same_dirs | keeps_step]);
        assert (keeps (trace_grows not_model_call) m) as Kt
          by (repeat first [apply init_no_model_call | keeps_step];
              unfold not_model_call; simpl; tauto);
        apply bind_inv in H as [(? & ? & E & H)|(? & E & ->)];
        [ pose proof (Kd _ _ _ E) as Hd1; pose proof (Kt _ _ _ E) as Ht1;
          destruct Hinv as [Hd0 Ht0];
          assert (same_dirs s _ ∧ trace_grows not_model_call s _) as Hinv
            by (split; etrans; eassumption);
          clear Hd0 Ht0 Hd1 Ht1 Kd Kt
        | left; destruct Hinv as [Hd0 Ht0];
          split; [done|]; split;
          [ exact (transitivity Hd0 (Kd _ _ _ E))
          | exact (transitivity Ht0 (Kt _ _ _ E)) ] ]
    end.
  destruct Hinv as [Hd Ht]. red in Hd.
  lazymatch goal with
  | E : lift (build_streaming_iterator env) _ = (Ok ?l, _) |- _ =>
      apply lift_inv in E as [Hl _]; rename l into loader
  end.
  lazymatch goal with
  | E : SingingGenerate.__init__ _ _ _ = (Ok ?sg, _) |- _ =>
      rename sg into singingGenerate
  end.
  do 14 (erewrite bind_ok in H by reflexivity; cbn [heap trace dirs] in H).
  right.
  lazymatch type of H with
  | _ ?st = _ =>
      assert (dirs st = all_channels ∪ dirs s) as Hd1
        by (cbn [dirs]; rewrite Hd; unfold all_channels; clear; set_solver);
      assert (trace_grows not_model_call s st) as Ht1
        by (etrans; [exact Ht|]; eexists;
            split; [cbn [trace]; rewrite <- !app_assoc; reflexivity|];
            repeat constructor; unfold not_model_call; simpl; tauto);
      revert Hd1 Ht1 H; generalize st as s1; intros s1 Hd1 Ht1 H
  end.
  apply bind_inv in H as [(output_dict & s2 & Hloop & H)|(e & Hloop & ->)].
  - by exists singingGenerate, loader, s1, (Ok output_dict), s2.
  - by exists singingGenerate, loader, s1, (Raise e), s'.
Qed.

(** X15. A run that completes never removes the directory
    [speech_shape], and leaves every directory that is not one of its
    eight as it found it: there or not. *)
Theorem completed_run_keeps_other_directories env a s s' :
  inference env a s = (Ok (), s') →
  "speech_shape" ∈ dirs s'
  ∧ ∀ d, d ∉ all_channels → (d ∈ dirs s' ↔ d ∈ dirs s).
Proof.
  intros H.
  apply inference_inv in H
    as [(? & _)|(sg & loader & s1 & res & s2 & _ & Hd1 & _ & Hloop & H)];
    [done|].
  destruct res as [output_dict|e]; [|by destruct H].
  destruct output_dict as [output|];
    [|by rewrite remove_unused_unbound in H].
  apply for_loader_same_dirs in Hloop. red in Hloop.
  split.
  - rewrite (remove_unused_other _ _ _ _ "speech_shape" H).
    + rewrite Hloop, Hd1. unfold all_channels. clear. set_solver.
    + apply (bool_decide_unpack _). by vm_compute.
  - intros d Hd.
    rewrite (remove_unused_other _ _ _ _ d H).
    + rewrite Hloop, Hd1. clear -Hd. set_solver.
    + intros Hin. apply Hd. apply list_elem_of_fmap in Hin as ([k d'] & -> & Hin).
      by apply (channel_keys_all k).
Qed.

Lemma completed_run_keeps_other_directories_witness :
  let env := Stub.env Stub.acoustic_by_text [Stub.item "utt1" [3; 4]%Z] in
  let run := inference env (Stub.args 1 0) Stub.empty_store in
  "speech_shape" ∈ dirs run.2
  ∧ ∀ d, d ∉ all_channels → (d ∈ dirs run.2 ↔ d ∈ dirs Stub.empty_store).
Proof.
  intros env run.
  apply (completed_run_keeps_other_directories env (Stub.args 1 0)
           Stub.empty_store run.2).
  vm_compute. reflexivity.
Defined.

(** X16. A run that raises has removed no directory: either it stopped
    before making any, or all eight are there when it stops.  Pruning
    itself cannot fail once the loop has bound [output_dict]. *)
Theorem aborted_run_prunes_nothing env a s e s' :
  inference env a s = (Raise e, s') →
  dirs s' = dirs s ∨ dirs s' = all_channels ∪ dirs s.
Proof.
  intros H.
  apply inference_inv in H
    as [(_ & ? & _)|(sg & loader & s1 & res & s2 & _ & Hd1 & _ & Hloop & H)];
    [by left|].
  right.
  apply for_loader_same_dirs in Hloop. red in Hloop.
  destruct res as [output_dict|e']; [|destruct H as [_ ->]; congruence].
  destruct output_dict as [output|].
  - destruct (remove_unused_returns output channel_keys s2 channel_keys_NoDup)
      as [s3 Hs3]; [|congruence].
    intros d Hd. rewrite Hloop, Hd1.
    apply list_elem_of_fmap in Hd as ([k d'] & -> & Hin).
    apply elem_of_union_l. by apply (channel_keys_all k).
  - rewrite remove_unused_unbound in H. injection H as _ <-. congruence.
Qed.

Lemma aborted_run_prunes_nothing_witness :
  let env := Stub.env Stub.acoustic_by_text [] in
  let run := inference env (Stub.args 1 0) Stub.empty_store in
  dirs run.2 = dirs Stub.empty_store
  ∨ dirs run.2 = all_channels ∪ dirs Stub.empty_store.
Proof.
  intros env run.
  apply (aborted_run_prunes_nothing env (Stub.args 1 0) Stub.empty_store
           (UnboundLocalError "output_dict") run.2).
  vm_compute. reflexivity.
Defined.

(** X17. In a run that completes, the model has been called exactly
    once for each utterance the loader yielded, and there was at least
    one. *)
Theorem one_model_call_per_utterance env a s s' :
  inference env a s = (Ok (), s') →
  ∃ loader evs,
    build_streaming_iterator env = Ok loader
    ∧ loader ≠ []
    ∧ trace s' = trace s ++ evs
    ∧ length (model_calls evs) = length loader.
Proof.
  intros H.
  apply inference_inv in H
    as [(? & _)|(sg & loader & s1 & res & s2 & Hl & _ & Ht1 & Hloop & H)];
    [done|].
  destruct res as [output_dict|e]; [|by destruct H].
  apply remove_unused_same_trace in H as Ht.
  destruct Ht1 as (evs1 & Ht1 & Hevs1).
  apply for_loader_model_calls in Hloop as Hcalls.
  destruct Hcalls as (evs2 & Ht2 & Hn).
  exists loader, (evs1 ++ evs2). split; [done|]. split.
  { intros ->. injection Hloop as <- <-.
    by rewrite remove_unused_unbound in H. }
  rewrite Ht, Ht2, Ht1, <- app_assoc. split; [done|].
  by rewrite model_calls_app, (model_calls_none _ Hevs1).
Qed.

Lemma one_model_call_per_utterance_witness :
  let env := Stub.env Stub.acoustic_by_text
               [Stub.item "utt1" [3; 4]%Z; Stub.item "utt2" [5]%Z] in
  let run := inference env (Stub.args 1 0) Stub.empty_store in
  ∃ loader evs,
    build_streaming_iterator env = Ok loader
    ∧ loader ≠ []
    ∧ trace run.2 = trace Stub.empty_store ++ evs
    ∧ length (model_calls evs) = length loader.
Proof.
  intros env run.
  apply (one_model_call_per_utterance env (Stub.args 1 0) Stub.empty_store
           run.2).
  vm_compute. reflexivity.
Defined.

